(** * WatchGraph API: requirement applicability and compliance aggregation

    A shallow embedding of [src/models.py] and of the request handlers of
    [src/app.py], with the properties of the handlers that the design
    document of the repository states.

    The persistent store is modelled as three tables (lists of rows in
    insertion order) whose primary keys are checked on insert; the table
    of evidence is left out, no handler reads or writes it.  A handler is
    a function of the committed store and of the values the process draws
    from its environment ([uuid.uuid4], [datetime.utcnow]); it returns its
    result together with the list of store states it committed, in order.
    The session follows SQLAlchemy's unit of work: [db.add] and attribute
    assignments are pending until [db.commit] flushes them, column
    defaults are evaluated by the flush, and a flush writes a loaded row
    only when an assigned attribute differs from the loaded value. *)

From Stdlib Require Import ZArith List Bool Lia.
From Stdlib Require Import Floats.SpecFloat.
From stdpp Require Import base decidable option list gmap strings.
Import ListNotations.

Local Open Scope Z_scope.
Local Open Scope string_scope.
Local Open Scope list_scope.

(** ** Python values *)

Inductive Error : Type :=
| HTTPException (status_code : Z) (detail : string)
| IntegrityError
| JSONDecodeError
| TypeError
| AttributeError
| KeyError
| ZeroDivisionError.

(** Exceptions propagate to the caller: the error monad on [Error + A]. *)
Definition raise {A : Type} (e : Error) : Error + A := inl e.

Definition bind_err {A B : Type} (c : Error + A) (k : A -> Error + B)
  : Error + B :=
  match c with
  | inl e => inl e
  | inr a => k a
  end.

#[global] Instance Error_bind : MBind (sum Error) :=
  fun A B k c => bind_err c k.

(** What [json.loads] can return. *)
#[warnings="-register-all"]
Inductive json : Type :=
| JNull
| JBool (b : bool)
| JInt (z : Z)
| JFloat (f : spec_float)
| JStr (s : string)
| JArr (items : list json)
| JObj (members : list (string * json)).

(** [needle in hay] on two [str]: substring search. *)
Fixpoint str_contains (needle hay : string) : bool :=
  String.prefix needle hay ||
  match hay with
  | EmptyString => false
  | String _ rest => str_contains needle rest
  end.

(** [x == v] for a [str] x and a decoded JSON value v. *)
Definition str_eq_json (x : string) (v : json) : bool :=
  match v with
  | JStr s => String.eqb x s
  | _ => false
  end.

(** [x in v] for a [str] x: list membership, dict key membership,
    substring of a string, and [TypeError] for values that are not
    containers. *)
Definition py_in (x : string) (v : json) : Error + bool :=
  match v with
  | JArr items => inr (existsb (str_eq_json x) items)
  | JObj members => inr (existsb (fun kv => String.eqb x (fst kv)) members)
  | JStr s => inr (str_contains x s)
  | JNull | JBool _ | JInt _ | JFloat _ => raise TypeError
  end.

(** *** Floats

    Python's [float] is IEEE 754 binary64, here [spec_float] with the
    operations of [SpecFloat] at precision 53. *)

Definition prec : Z := 53.
Definition emax : Z := 1024.

(** An [int] as the exact dyadic number it is (mantissa not normalised). *)
Definition exact_int (z : Z) : spec_float :=
  match z with
  | Z0 => S754_zero false
  | Zpos p => S754_finite false p 0
  | Zneg p => S754_finite true p 0
  end.

(** [float(z)]: the nearest double. *)
Definition float_of_int (z : Z) : spec_float :=
  binary_normalize prec emax z 0 false.

(** [a / b] on two [int]: the correctly rounded quotient. *)
Definition int_truediv (a b : Z) : Error + spec_float :=
  if (b =? 0)%Z then raise ZeroDivisionError
  else inr (SFdiv prec emax (exact_int a) (exact_int b)).

(** [x * n] for a [float] x and an [int] n. *)
Definition float_mul_int (x : spec_float) (n : Z) : spec_float :=
  SFmul prec emax x (float_of_int n).

(** [num / den] rounded to the nearest integer, ties to even ([den > 0]). *)
Definition round_half_even_div (num den : Z) : Z :=
  let q := (num / den)%Z in
  let r := (num mod den)%Z in
  match (2 * r ?= den)%Z with
  | Lt => q
  | Gt => (q + 1)%Z
  | Eq => if Z.even q then q else (q + 1)%Z
  end.

(** [round(x, ndigits)] for [ndigits >= 0]: the exact value of [x] is
    rounded to [ndigits] decimals (ties to even), and the decimal is read
    back as the nearest double. *)
Definition float_round (x : spec_float) (ndigits : nat) : spec_float :=
  match x with
  | S754_finite s m e =>
      let p := (10 ^ Z.of_nat ndigits)%Z in
      let n :=
        if (0 <=? e)%Z then (Zpos m * 2 ^ e * p)%Z
        else round_half_even_div (Zpos m * p) (2 ^ (- e)) in
      match n with
      | Z0 => S754_zero s
      | Zpos n' => SFdiv prec emax (S754_finite s n' 0) (exact_int p)
      | Zneg _ => S754_nan
      end
  | _ => x
  end.

(** A JSON number of a response: [int] or [float]. *)
Inductive pynum : Type :=
| PyInt (z : Z)
| PyFloat (f : spec_float).

(** ** [models.py] *)

Definition ident : Type := string.
Definition datetime : Type := Z.

Inductive RiskCategory : Type := UNACCEPTABLE | HIGH | LIMITED | MINIMAL.
Inductive ComplianceStatus : Type :=
  NOT_STARTED | IN_PROGRESS | COMPLETED | NON_COMPLIANT.

#[global] Instance RiskCategory_eq_dec : EqDecision RiskCategory.
Proof. solve_decision. Defined.
#[global] Instance ComplianceStatus_eq_dec : EqDecision ComplianceStatus.
Proof. solve_decision. Defined.

Definition RiskCategory_value (r : RiskCategory) : string :=
  match r with
  | UNACCEPTABLE => "unacceptable"
  | HIGH => "high"
  | LIMITED => "limited"
  | MINIMAL => "minimal"
  end.

Definition ComplianceStatus_value (s : ComplianceStatus) : string :=
  match s with
  | NOT_STARTED => "not_started"
  | IN_PROGRESS => "in_progress"
  | COMPLETED => "completed"
  | NON_COMPLIANT => "non_compliant"
  end.

Module AISystem.
Record t : Type := mk {
  id : ident;
  name : string;
  description : option string;
  risk_category : RiskCategory;
  organization : option string;
  department : option string;
  owner_email : option string;
  created_at : datetime;
  updated_at : datetime
}.
End AISystem.

Module ComplianceRequirement.
(** [applies_to] is the stored column as [json.loads] sees it: the
    document it decodes to, or [None] when the decoder rejects it. *)
Record t : Type := mk {
  id : ident;
  article : string;
  title : string;
  description : string;
  applies_to : option json
}.
End ComplianceRequirement.

Module RequirementMapping.
Record t : Type := mk {
  id : ident;
  ai_system_id : ident;
  requirement_id : ident;
  status : ComplianceStatus;
  notes : option string;
  updated_by : option string;
  created_at : datetime;
  updated_at : datetime
}.
End RequirementMapping.

(** [json.loads(requirement.applies_to)].  [None] is a column value that
    the call rejects: it raises [JSONDecodeError] for text that is not
    JSON and [TypeError] for a value that is no text.  The model has the
    one error for both, and what is stated of a read that fails is stated
    for either. *)
Definition json_loads (text : option json) : Error + json :=
  match text with
  | Some v => inr v
  | None => raise JSONDecodeError
  end.

(** ** The store *)

Record DB : Type := mkDB {
  ai_systems : list AISystem.t;
  compliance_requirements : list ComplianceRequirement.t;
  requirement_mappings : list RequirementMapping.t
}.

(** What the process draws from outside during one request: the k-th
    identifier generated and the k-th clock reading. *)
Record Oracle : Type := mkOracle {
  uuid4 : nat -> ident;
  utcnow : nat -> datetime
}.

(** The result of a handler and the store states it committed. *)
Record Outcome (A : Type) : Type := mkOutcome {
  result : Error + A;
  commits : list DB
}.
Arguments mkOutcome {A} _ _.
Arguments result {A} _.
Arguments commits {A} _.

(** Modelled from the spec: [database.get_db], which hands the session to
    a handler, is not among the sources.  As section 7 of the design
    document has it, an operation that fails commits nothing: a session
    that ends in an exception drops its pending rows, and the outcome keeps
    the commits made before the exception. *)
Definition abort {A : Type} (e : Error) (committed : list DB) : Outcome A :=
  mkOutcome (raise e) committed.

(** The committed store once the request is over. *)
Definition final_state {A : Type} (db : DB) (out : Outcome A) : DB :=
  List.last (commits out) db.

(** [query.filter(<Model>.id == k).first()] *)
Definition first_by {A : Type} (key : A -> ident) (k : ident) (rows : list A)
  : option A :=
  List.find (fun r => String.eqb (key r) k) rows.

(** Whether a row of the table has the key [k]. *)
Definition pk_taken {A : Type} (key : A -> ident) (k : ident) (rows : list A)
  : bool :=
  existsb (fun r => String.eqb (key r) k) rows.

(** INSERT of one system row; the primary key must be free. *)
Definition insert_system (s : AISystem.t) (db : DB) : option DB :=
  if pk_taken AISystem.id (AISystem.id s) (ai_systems db) then None
  else Some (mkDB (ai_systems db ++ [s])
                  (compliance_requirements db)
                  (requirement_mappings db)).

(** ** Request and response schemas of [app.py] *)

Module AISystemCreate.
Record t : Type := mk {
  name : string;
  description : option string;
  risk_category : RiskCategory;
  organization : option string;
  department : option string;
  owner_email : option string
}.
End AISystemCreate.

Module AISystemResponse.
Record t : Type := mk {
  id : ident;
  name : string;
  description : option string;
  risk_category : string;
  organization : option string;
  department : option string;
  owner_email : option string;
  created_at : datetime;
  updated_at : datetime
}.
End AISystemResponse.

Module RequirementStatusUpdate.
Record t : Type := mk {
  status : ComplianceStatus;
  notes : option string;
  updated_by : option string
}.
End RequirementStatusUpdate.

(** The dictionary [update_requirement_status] returns. *)
Module StatusUpdateResponse.
Record t : Type := mk {
  mapping_id : ident;
  requirement_id : ident;
  article : string;
  title : string;
  old_status : string;
  new_status : string;
  notes : option string;
  updated_by : option string;
  updated_at : datetime
}.
End StatusUpdateResponse.

(** An element of the list [list_requirements] returns. *)
Module RequirementEntry.
Record t : Type := mk {
  id : ident;
  article : string;
  title : string;
  description : string;
  applies_to : json
}.
End RequirementEntry.

(** An element of the list [get_system_requirements] returns. *)
Module MappingEntry.
Record t : Type := mk {
  mapping_id : ident;
  requirement_id : ident;
  article : string;
  title : string;
  description : string;
  status : string;
  notes : option string;
  updated_at : datetime
}.
End MappingEntry.

(** The dictionary [get_system_compliance] returns; a key that the
    dictionary does not have is [None]. *)
Module ComplianceSummary.
Record t : Type := mk {
  system_id : ident;
  system_name : string;
  risk_category : string;
  total_requirements : Z;
  compliance_percentage : pynum;
  status_breakdown : gmap string Z;
  requirements_completed : option Z;
  requirements_in_progress : option Z;
  requirements_not_started : option Z;
  requirements_non_compliant : option Z
}.
End ComplianceSummary.

Definition to_response (s : AISystem.t) : AISystemResponse.t :=
  {| AISystemResponse.id := AISystem.id s;
     AISystemResponse.name := AISystem.name s;
     AISystemResponse.description := AISystem.description s;
     AISystemResponse.risk_category :=
       RiskCategory_value (AISystem.risk_category s);
     AISystemResponse.organization := AISystem.organization s;
     AISystemResponse.department := AISystem.department s;
     AISystemResponse.owner_email := AISystem.owner_email s;
     AISystemResponse.created_at := AISystem.created_at s;
     AISystemResponse.updated_at := AISystem.updated_at s |}.

(** ** [create_ai_system] *)

(** A [RequirementMapping(...)] that was added to the session and is not
    flushed yet: the constructor arguments, no key and no timestamps. *)
Module Pending.
Record t : Type := mk {
  ai_system_id : ident;
  requirement_id : ident;
  status : ComplianceStatus
}.
End Pending.

(** The column defaults a flush fills in for the n-th row it inserts
    during the request. *)
Definition flush_mapping (o : Oracle) (n : nat) (p : Pending.t)
  : RequirementMapping.t :=
  {| RequirementMapping.id := uuid4 o n;
     RequirementMapping.ai_system_id := Pending.ai_system_id p;
     RequirementMapping.requirement_id := Pending.requirement_id p;
     RequirementMapping.status := Pending.status p;
     RequirementMapping.notes := None;
     RequirementMapping.updated_by := None;
     RequirementMapping.created_at := utcnow o (2 * n);
     RequirementMapping.updated_at := utcnow o (2 * n + 1) |}.

(** The loop of lines 147-159 over the rows of the catalog: [session_new]
    holds the mappings passed to [db.add] so far, in order; the first
    exception ends the loop. *)
Fixpoint assign_requirements (risk_category : string) (system_id : ident)
    (applicable_requirements : list ComplianceRequirement.t)
    (session_new : list Pending.t) : Error + list Pending.t :=
  match applicable_requirements with
  | [] => inr session_new
  | requirement :: rest =>
      applies_to ← json_loads (ComplianceRequirement.applies_to requirement);
      applies ← py_in risk_category applies_to;
      if applies : bool then
        let mapping :=
          {| Pending.ai_system_id := system_id;
             Pending.requirement_id := ComplianceRequirement.id requirement;
             Pending.status := NOT_STARTED |} in
        assign_requirements risk_category system_id rest
          (session_new ++ [mapping])
      else assign_requirements risk_category system_id rest session_new
  end.

(** The flush of the pending mappings, the first of them being the n-th
    row of the request; [None] when a primary key is taken. *)
Fixpoint insert_mappings (o : Oracle) (n : nat) (pending : list Pending.t)
    (table : list RequirementMapping.t) : option (list RequirementMapping.t) :=
  match pending with
  | [] => Some table
  | p :: rest =>
      let row := flush_mapping o n p in
      if pk_taken RequirementMapping.id (RequirementMapping.id row) table
      then None
      else insert_mappings o (S n) rest (table ++ [row])
  end.

(** The row of lines 130-137 with the defaults the first flush fills in. *)
Definition new_system (system : AISystemCreate.t) (o : Oracle) : AISystem.t :=
  {| AISystem.id := uuid4 o 0;
     AISystem.name := AISystemCreate.name system;
     AISystem.description := AISystemCreate.description system;
     AISystem.risk_category := AISystemCreate.risk_category system;
     AISystem.organization := AISystemCreate.organization system;
     AISystem.department := AISystemCreate.department system;
     AISystem.owner_email := AISystemCreate.owner_email system;
     AISystem.created_at := utcnow o 0;
     AISystem.updated_at := utcnow o 1 |}.

Definition create_ai_system (system : AISystemCreate.t) (db : DB) (o : Oracle)
  : Outcome AISystemResponse.t :=
  let db_system := new_system system o in
  (* db.add(db_system); db.commit(); db.refresh(db_system) *)
  match insert_system db_system db with
  | None => abort IntegrityError []
  | Some db1 =>
      (* db.query(ComplianceRequirement).all() and the loop *)
      let applicable_requirements := compliance_requirements db1 in
      match assign_requirements
              (RiskCategory_value (AISystemCreate.risk_category system))
              (AISystem.id db_system) applicable_requirements [] with
      | inl e => abort e [db1]
      | inr pending =>
          (* db.commit() *)
          match insert_mappings o 1 pending (requirement_mappings db1) with
          | None => abort IntegrityError [db1]
          | Some table =>
              let db2 := mkDB (ai_systems db1)
                              (compliance_requirements db1) table in
              mkOutcome (inr (to_response db_system)) [db1; db2]
          end
      end
  end.

(** ** [list_ai_systems] and [get_ai_system] *)

Definition list_ai_systems (db : DB) : Outcome (list AISystemResponse.t) :=
  mkOutcome (inr (List.map to_response (ai_systems db))) [].

Definition get_ai_system (system_id : ident) (db : DB)
  : Outcome AISystemResponse.t :=
  match first_by AISystem.id system_id (ai_systems db) with
  | None => abort (HTTPException 404 "AI system not found") []
  | Some system => mkOutcome (inr (to_response system)) []
  end.

(** ** [list_requirements] and [get_system_requirements] *)

(** The comprehension of lines 237-246; the first row that does not decode
    raises. *)
Fixpoint requirement_entries (requirements : list ComplianceRequirement.t)
  : Error + list RequirementEntry.t :=
  match requirements with
  | [] => inr []
  | req :: rest =>
      applies_to ← json_loads (ComplianceRequirement.applies_to req);
      entries ← requirement_entries rest;
      inr ({| RequirementEntry.id := ComplianceRequirement.id req;
              RequirementEntry.article := ComplianceRequirement.article req;
              RequirementEntry.title := ComplianceRequirement.title req;
              RequirementEntry.description :=
                ComplianceRequirement.description req;
              RequirementEntry.applies_to := applies_to |} :: entries)
  end.

Definition list_requirements (db : DB) : Outcome (list RequirementEntry.t) :=
  mkOutcome (requirement_entries (compliance_requirements db)) [].

Definition mappings_of (system_id : ident) (db : DB)
  : list RequirementMapping.t :=
  List.filter
    (fun m => String.eqb (RequirementMapping.ai_system_id m) system_id)
    (requirement_mappings db).

(** The loop of lines 267-284: a mapping whose requirement is not in the
    catalog is skipped. *)
Fixpoint mapping_entries (db : DB) (mappings : list RequirementMapping.t)
  : list MappingEntry.t :=
  match mappings with
  | [] => []
  | mapping :: rest =>
      match first_by ComplianceRequirement.id
              (RequirementMapping.requirement_id mapping)
              (compliance_requirements db) with
      | Some requirement =>
          {| MappingEntry.mapping_id := RequirementMapping.id mapping;
             MappingEntry.requirement_id :=
               ComplianceRequirement.id requirement;
             MappingEntry.article := ComplianceRequirement.article requirement;
             MappingEntry.title := ComplianceRequirement.title requirement;
             MappingEntry.description :=
               ComplianceRequirement.description requirement;
             MappingEntry.status :=
               ComplianceStatus_value (RequirementMapping.status mapping);
             MappingEntry.notes := RequirementMapping.notes mapping;
             MappingEntry.updated_at :=
               RequirementMapping.updated_at mapping |}
          :: mapping_entries db rest
      | None => mapping_entries db rest
      end
  end.

Definition get_system_requirements (system_id : ident) (db : DB)
  : Outcome (list MappingEntry.t) :=
  match first_by AISystem.id system_id (ai_systems db) with
  | None => abort (HTTPException 404 "AI system not found") []
  | Some system =>
      mkOutcome (inr (mapping_entries db (mappings_of system_id db))) []
  end.

(** ** [get_system_compliance] *)

(** [d[k]] *)
Definition dict_get (d : gmap string Z) (k : string) : Error + Z :=
  match d !! k with
  | Some v => inr v
  | None => raise KeyError
  end.

(** The loop of lines 326-327: [status_counts[mapping.status.value] += 1]. *)
Fixpoint count_statuses (mappings : list RequirementMapping.t)
    (status_counts : gmap string Z) : Error + gmap string Z :=
  match mappings with
  | [] => inr status_counts
  | mapping :: rest =>
      let key := ComplianceStatus_value (RequirementMapping.status mapping) in
      n ← dict_get status_counts key;
      count_statuses rest (<[key := (n + 1)%Z]> status_counts)
  end.

Definition summarize (system_id : ident) (system : AISystem.t)
    (mappings : list RequirementMapping.t) : Error + ComplianceSummary.t :=
  let total_requirements := Z.of_nat (length mappings) in
  if (total_requirements =? 0)%Z then
    inr {| ComplianceSummary.system_id := system_id;
           ComplianceSummary.system_name := AISystem.name system;
           ComplianceSummary.risk_category :=
             RiskCategory_value (AISystem.risk_category system);
           ComplianceSummary.total_requirements := 0;
           ComplianceSummary.compliance_percentage := PyInt 0;
           ComplianceSummary.status_breakdown := ∅;
           ComplianceSummary.requirements_completed := None;
           ComplianceSummary.requirements_in_progress := None;
           ComplianceSummary.requirements_not_started := None;
           ComplianceSummary.requirements_non_compliant := None |}
  else
    status_counts ←
      count_statuses mappings
        (<["not_started" := 0%Z]> (<["in_progress" := 0%Z]>
          (<["completed" := 0%Z]> (<["non_compliant" := 0%Z]> ∅))));
    completed ← dict_get status_counts "completed";
    ratio ← int_truediv completed total_requirements;
    let compliance_percentage := float_mul_int ratio 100 in
    completed' ← dict_get status_counts "completed";
    in_progress ← dict_get status_counts "in_progress";
    not_started ← dict_get status_counts "not_started";
    non_compliant ← dict_get status_counts "non_compliant";
    inr {| ComplianceSummary.system_id := system_id;
           ComplianceSummary.system_name := AISystem.name system;
           ComplianceSummary.risk_category :=
             RiskCategory_value (AISystem.risk_category system);
           ComplianceSummary.total_requirements := total_requirements;
           ComplianceSummary.compliance_percentage :=
             PyFloat (float_round compliance_percentage 2);
           ComplianceSummary.status_breakdown := status_counts;
           ComplianceSummary.requirements_completed := Some completed';
           ComplianceSummary.requirements_in_progress := Some in_progress;
           ComplianceSummary.requirements_not_started := Some not_started;
           ComplianceSummary.requirements_non_compliant :=
             Some non_compliant |}.

Definition get_system_compliance (system_id : ident) (db : DB)
  : Outcome ComplianceSummary.t :=
  match first_by AISystem.id system_id (ai_systems db) with
  | None => abort (HTTPException 404 "AI system not found") []
  | Some system =>
      mkOutcome (summarize system_id system (mappings_of system_id db)) []
  end.

(** ** [update_requirement_status] *)

(** The attribute assignments of lines 376-380. *)
Definition apply_update (update : RequirementStatusUpdate.t)
    (mapping : RequirementMapping.t) : RequirementMapping.t :=
  {| RequirementMapping.id := RequirementMapping.id mapping;
     RequirementMapping.ai_system_id := RequirementMapping.ai_system_id mapping;
     RequirementMapping.requirement_id :=
       RequirementMapping.requirement_id mapping;
     RequirementMapping.status := RequirementStatusUpdate.status update;
     RequirementMapping.notes :=
       match RequirementStatusUpdate.notes update with
       | Some notes => Some notes
       | None => RequirementMapping.notes mapping
       end;
     RequirementMapping.updated_by :=
       match RequirementStatusUpdate.updated_by update with
       | Some updated_by => Some updated_by
       | None => RequirementMapping.updated_by mapping
       end;
     RequirementMapping.created_at := RequirementMapping.created_at mapping;
     RequirementMapping.updated_at := RequirementMapping.updated_at mapping |}.

(** Whether the flush finds an assigned attribute whose value differs
    from the loaded one.  Only then does the unit of work emit an UPDATE
    for the row. *)
Definition net_change (old new : RequirementMapping.t) : bool :=
  negb (bool_decide
          (RequirementMapping.status old = RequirementMapping.status new
           ∧ RequirementMapping.notes old = RequirementMapping.notes new
           ∧ RequirementMapping.updated_by old
             = RequirementMapping.updated_by new)).

(** The row a flush of the modified object leaves in the table: the UPDATE
    carries the changed columns and [updated_at], whose [onupdate] default
    is the clock; without a changed column there is no UPDATE. *)
Definition flush_update (o : Oracle) (old new : RequirementMapping.t)
  : RequirementMapping.t :=
  if net_change old new then
    {| RequirementMapping.id := RequirementMapping.id new;
       RequirementMapping.ai_system_id := RequirementMapping.ai_system_id new;
       RequirementMapping.requirement_id :=
         RequirementMapping.requirement_id new;
       RequirementMapping.status := RequirementMapping.status new;
       RequirementMapping.notes := RequirementMapping.notes new;
       RequirementMapping.updated_by := RequirementMapping.updated_by new;
       RequirementMapping.created_at := RequirementMapping.created_at new;
       RequirementMapping.updated_at := utcnow o 0 |}
  else old.

(** UPDATE ... WHERE id = k *)
Definition replace_row (k : ident) (row : RequirementMapping.t)
    (table : list RequirementMapping.t) : list RequirementMapping.t :=
  List.map
    (fun m => if String.eqb (RequirementMapping.id m) k then row else m)
    table.

Definition update_requirement_status (mapping_id : ident)
    (update : RequirementStatusUpdate.t) (db : DB) (o : Oracle)
  : Outcome StatusUpdateResponse.t :=
  match first_by RequirementMapping.id mapping_id (requirement_mappings db) with
  | None => abort (HTTPException 404 "Requirement mapping not found") []
  | Some mapping =>
      let old_status :=
        ComplianceStatus_value (RequirementMapping.status mapping) in
      (* db.commit(); db.refresh(mapping) *)
      let mapping' := flush_update o mapping (apply_update update mapping) in
      let db' := mkDB (ai_systems db) (compliance_requirements db)
                      (replace_row mapping_id mapping'
                                   (requirement_mappings db)) in
      match first_by ComplianceRequirement.id
              (RequirementMapping.requirement_id mapping')
              (compliance_requirements db') with
      | None => abort AttributeError [db']
      | Some requirement =>
          mkOutcome
            (inr {| StatusUpdateResponse.mapping_id :=
                      RequirementMapping.id mapping';
                    StatusUpdateResponse.requirement_id :=
                      ComplianceRequirement.id requirement;
                    StatusUpdateResponse.article :=
                      ComplianceRequirement.article requirement;
                    StatusUpdateResponse.title :=
                      ComplianceRequirement.title requirement;
                    StatusUpdateResponse.old_status := old_status;
                    StatusUpdateResponse.new_status :=
                      ComplianceStatus_value
                        (RequirementMapping.status mapping');
                    StatusUpdateResponse.notes :=
                      RequirementMapping.notes mapping';
                    StatusUpdateResponse.updated_by :=
                      RequirementMapping.updated_by mapping';
                    StatusUpdateResponse.updated_at :=
                      RequirementMapping.updated_at mapping' |})
            [db']
      end
  end.

(** ** The store over time *)

Inductive Request : Type :=
| CreateSystem (system : AISystemCreate.t)
| ListSystems
| GetSystem (system_id : ident)
| ListRequirements
| GetSystemRequirements (system_id : ident)
| GetCompliance (system_id : ident)
| UpdateStatus (mapping_id : ident) (update : RequirementStatusUpdate.t).

(** The store states a request makes visible to other readers. *)
Definition observable (r : Request) (db : DB) (o : Oracle) : list DB :=
  match r with
  | CreateSystem system => commits (create_ai_system system db o)
  | ListSystems => commits (list_ai_systems db)
  | GetSystem system_id => commits (get_ai_system system_id db)
  | ListRequirements => commits (list_requirements db)
  | GetSystemRequirements system_id =>
      commits (get_system_requirements system_id db)
  | GetCompliance system_id => commits (get_system_compliance system_id db)
  | UpdateStatus mapping_id update =>
      commits (update_requirement_status mapping_id update db o)
  end.

(** Modelled from the spec: [database.init_db] is not among the sources.
    A freshly initialised store has no system and no tracking record; its
    catalog is the reference data seeded out-of-band (section 3 of the
    design document). *)
Definition init_db (catalog : list ComplianceRequirement.t) : DB :=
  mkDB [] catalog [].

(** The stores that requests lead to from a freshly initialised store. *)
Inductive reachable (catalog : list ComplianceRequirement.t) : DB -> Prop :=
| reachable_init : reachable catalog (init_db catalog)
| reachable_commit db r o db' :
    reachable catalog db ->
    In db' (observable r db o) ->
    reachable catalog db'.

(** Whether [m] references system [s] and requirement [q]. *)
Definition links (s q : ident) (m : RequirementMapping.t) : bool :=
  String.eqb (RequirementMapping.ai_system_id m) s
  && String.eqb (RequirementMapping.requirement_id m) q.

(** The tracking records of [db] that reference system [s] and
    requirement [q]. *)
Definition records_for (s q : ident) (db : DB) : list RequirementMapping.t :=
  List.filter (links s q) (requirement_mappings db).

(** ** Vocabulary of the properties *)

(** The number of rows of [mappings] whose status is [st]. *)
Definition count_status (st : ComplianceStatus)
    (mappings : list RequirementMapping.t) : Z :=
  Z.of_nat (length (List.filter
    (fun m => bool_decide (RequirementMapping.status m = st)) mappings)).

(** The number of rows of [mappings] whose status is written [k]. *)
Definition count_key (k : string) (mappings : list RequirementMapping.t) : Z :=
  Z.of_nat (length (List.filter
    (fun m => String.eqb
                (ComplianceStatus_value (RequirementMapping.status m)) k)
    mappings)).

(** The percentage Python computes from the two counts:
    [round((completed / total) * 100, 2)]. *)
Definition percentage_of (completed total : Z) : spec_float :=
  float_round
    (float_mul_int (SFdiv prec emax (exact_int completed) (exact_int total))
                   100)
    2.

(** The four keys of the breakdown, zero-filled. *)
Definition zero_counts : gmap string Z :=
  <["not_started" := 0%Z]> (<["in_progress" := 0%Z]>
    (<["completed" := 0%Z]> (<["non_compliant" := 0%Z]> ∅))).

(** The zero-record case as the design document words it: the summary
    lists every status with count zero. *)
Definition empty_summary_is_zero_filled : Prop :=
  forall system_id db system,
    first_by AISystem.id system_id (ai_systems db) = Some system ->
    mappings_of system_id db = [] ->
    exists summary,
      result (get_system_compliance system_id db) = inr summary /\
      ComplianceSummary.total_requirements summary = 0%Z /\
      ComplianceSummary.compliance_percentage summary = PyInt 0 /\
      forall st,
        ComplianceSummary.status_breakdown summary
          !! ComplianceStatus_value st = Some 0%Z.

(** Whether an update carries a value that differs from the stored one. *)
Definition changes_record (update : RequirementStatusUpdate.t)
    (mapping : RequirementMapping.t) : Prop :=
  RequirementStatusUpdate.status update <> RequirementMapping.status mapping
  \/ (exists notes, RequirementStatusUpdate.notes update = Some notes
                    /\ RequirementMapping.notes mapping <> Some notes)
  \/ (exists updated_by,
         RequirementStatusUpdate.updated_by update = Some updated_by
         /\ RequirementMapping.updated_by mapping <> Some updated_by).

(** The timestamp rule as the design document words it: every update that
    succeeds stamps the record with the time of the update. *)
Definition every_update_stamps_record : Prop :=
  forall mapping_id update db o response,
    result (update_requirement_status mapping_id update db o)
      = inr response ->
    exists mapping',
      first_by RequirementMapping.id mapping_id
        (requirement_mappings
           (final_state db
              (update_requirement_status mapping_id update db o)))
        = Some mapping' /\
      RequirementMapping.updated_at mapping' = utcnow o 0.

(** Whether the test of line 152 holds for a row of the catalog. *)
Definition applies_to_risk (risk_category : string)
    (requirement : ComplianceRequirement.t) : bool :=
  match json_loads (ComplianceRequirement.applies_to requirement)
        ≫= py_in risk_category with
  | inr applies => applies
  | inl _ => false
  end.

(** The mapping line 153 constructs for a row of the catalog. *)
Definition new_pending (system_id : ident)
    (requirement : ComplianceRequirement.t) : Pending.t :=
  {| Pending.ai_system_id := system_id;
     Pending.requirement_id := ComplianceRequirement.id requirement;
     Pending.status := NOT_STARTED |}.

(** The rows a flush makes of pending mappings, the first of them being
    the n-th row of the request. *)
Fixpoint flush_all (o : Oracle) (n : nat) (pending : list Pending.t)
  : list RequirementMapping.t :=
  match pending with
  | [] => []
  | p :: rest => flush_mapping o n p :: flush_all o (S n) rest
  end.

(** The tracking records of a system of category [risk_category] for the
    rows of [catalog] that apply to it. *)
Definition applicable_records (o : Oracle) (risk_category : string)
    (system_id : ident) (catalog : list ComplianceRequirement.t)
  : list RequirementMapping.t :=
  flush_all o 1
    (List.map (new_pending system_id)
              (List.filter (applies_to_risk risk_category) catalog)).

(** The store after the first commit of a registration. *)
Definition with_system (s : AISystem.t) (db : DB) : DB :=
  mkDB (ai_systems db ++ [s]) (compliance_requirements db)
       (requirement_mappings db).

(** The store after the second commit of a registration. *)
Definition with_records (records : list RequirementMapping.t) (db : DB) : DB :=
  mkDB (ai_systems db) (compliance_requirements db)
       (requirement_mappings db ++ records).

(** The tracking records a request added to the store. *)
Definition created_records {A : Type} (db : DB) (out : Outcome A)
  : list RequirementMapping.t :=
  skipn (length (requirement_mappings db))
        (requirement_mappings (final_state db out)).

(** The applicability set of a requirement is a JSON array, and the
    category is one of its elements. *)
Definition in_applicability_set (r : RiskCategory)
    (requirement : ComplianceRequirement.t) : Prop :=
  exists items,
    ComplianceRequirement.applies_to requirement = Some (JArr items) /\
    In (JStr (RiskCategory_value r)) items.

(** Every row of the catalog stores a JSON array. *)
Definition catalog_decodes (catalog : list ComplianceRequirement.t) : Prop :=
  Forall
    (fun q => exists items,
         ComplianceRequirement.applies_to q = Some (JArr items))
    catalog.

(** The identifiers the request draws are not in use, and those drawn for
    tracking records differ from one another. *)
Definition fresh_keys (o : Oracle) (db : DB) : Prop :=
  ~ In (uuid4 o 0) (List.map AISystem.id (ai_systems db)) /\
  List.NoDup
    (List.map (uuid4 o) (seq 1 (length (compliance_requirements db)))) /\
  forall n,
    (1 <= n <= length (compliance_requirements db))%nat ->
    ~ In (uuid4 o n)
         (List.map RequirementMapping.id (requirement_mappings db)).

(** The keys drawn for [count] tracking records differ from one another
    and from the keys of the table. *)
Definition record_keys_free (o : Oracle) (count : nat)
    (table : list RequirementMapping.t) : Prop :=
  List.NoDup (List.map (uuid4 o) (seq 1 count)) /\
  forall n,
    (1 <= n <= count)%nat ->
    ~ In (uuid4 o n) (List.map RequirementMapping.id table).

(** Atomicity as the design document words it: in every store state a
    registration makes visible, the new system comes with a tracking record
    for each requirement that applies to it. *)
Definition registration_is_atomic : Prop :=
  forall system db o db',
    In db' (commits (create_ai_system system db o)) ->
    In (uuid4 o 0) (List.map AISystem.id (ai_systems db')) ->
    forall q,
      In q (compliance_requirements db) ->
      applies_to_risk
        (RiskCategory_value (AISystemCreate.risk_category system)) q = true ->
      exists m,
        In m (requirement_mappings db') /\
        RequirementMapping.ai_system_id m = uuid4 o 0 /\
        RequirementMapping.requirement_id m = ComplianceRequirement.id q.

(** The system and the requirement a tracking record references. *)
Definition pair_of (m : RequirementMapping.t) : ident * ident :=
  (RequirementMapping.ai_system_id m, RequirementMapping.requirement_id m).

(** What every reachable store satisfies: the catalog is the seeded one,
    the keys of the tracking records are distinct, their (system,
    requirement) pairs are distinct, and each references a system of the
    store. *)
Definition consistent (catalog : list ComplianceRequirement.t) (db : DB)
  : Prop :=
  compliance_requirements db = catalog /\
  List.NoDup (List.map RequirementMapping.id (requirement_mappings db)) /\
  List.NoDup (List.map pair_of (requirement_mappings db)) /\
  forall m,
    In m (requirement_mappings db) ->
    In (RequirementMapping.ai_system_id m)
       (List.map AISystem.id (ai_systems db)).

#[global] Instance spec_float_eq_dec : EqDecision spec_float.
Proof. solve_decision. Defined.

(** The hundredths of [100 * completed / total], rounded to two decimals
    in exact arithmetic, ties to even. *)
Definition decimal_percentage (completed total : Z) : Z :=
  round_half_even_div (10000 * completed) total.

(** The double nearest to [n] hundredths. *)
Definition float_of_hundredths (n : Z) : spec_float :=
  SFdiv prec emax (exact_int n) (exact_int 100).

(** Whether the percentage Python computes is that double. *)
Definition agrees_with_decimal (completed total : nat) : bool :=
  bool_decide
    (percentage_of (Z.of_nat completed) (Z.of_nat total)
     = float_of_hundredths
         (decimal_percentage (Z.of_nat completed) (Z.of_nat total))).

(** ** Vocabulary of the further properties *)

(** [ComplianceStatus(value)], the conversion of line 376: the member with
    that value; [None] stands for the [ValueError] of any other string. *)
Definition ComplianceStatus_of_value (value : string)
  : option ComplianceStatus :=
  if String.eqb value "not_started" then Some NOT_STARTED
  else if String.eqb value "in_progress" then Some IN_PROGRESS
  else if String.eqb value "completed" then Some COMPLETED
  else if String.eqb value "non_compliant" then Some NON_COMPLIANT
  else None.

(** [RiskCategory(value)] *)
Definition RiskCategory_of_value (value : string) : option RiskCategory :=
  if String.eqb value "unacceptable" then Some UNACCEPTABLE
  else if String.eqb value "high" then Some HIGH
  else if String.eqb value "limited" then Some LIMITED
  else if String.eqb value "minimal" then Some MINIMAL
  else None.

(** A row of the catalog on which lines 149-152 raise: its [applies_to]
    does not decode, or decodes to a document that is no array, object or
    string. *)
Definition unreadable (q : ComplianceRequirement.t) : Prop :=
  match ComplianceRequirement.applies_to q with
  | None => True
  | Some (JArr _) | Some (JObj _) | Some (JStr _) => False
  | Some _ => True
  end.

(** Referential integrity of a store: the keys of the systems and of the
    tracking records are distinct, and every tracking record references a
    system of the store and a requirement of the catalog. *)
Definition referential (catalog : list ComplianceRequirement.t) (db : DB)
  : Prop :=
  compliance_requirements db = catalog /\
  List.NoDup (List.map AISystem.id (ai_systems db)) /\
  List.NoDup (List.map RequirementMapping.id (requirement_mappings db)) /\
  forall m,
    In m (requirement_mappings db) ->
    In (RequirementMapping.ai_system_id m)
       (List.map AISystem.id (ai_systems db)) /\
    In (RequirementMapping.requirement_id m)
       (List.map ComplianceRequirement.id catalog).

(** Every tracking record of a system is for a requirement of the catalog
    for which the test of line 152 holds with the category of the system. *)
Definition assigned_by_rule (db : DB) : Prop :=
  forall s m,
    In s (ai_systems db) ->
    In m (requirement_mappings db) ->
    RequirementMapping.ai_system_id m = AISystem.id s ->
    exists q,
      In q (compliance_requirements db) /\
      RequirementMapping.requirement_id m = ComplianceRequirement.id q /\
      applies_to_risk (RiskCategory_value (AISystem.risk_category s)) q
      = true.

(** The entry of [get_system_requirements] for a mapping and the row of
    the catalog it joins. *)
Definition entry_of (mapping : RequirementMapping.t)
    (requirement : ComplianceRequirement.t) : MappingEntry.t :=
  {| MappingEntry.mapping_id := RequirementMapping.id mapping;
     MappingEntry.requirement_id := ComplianceRequirement.id requirement;
     MappingEntry.article := ComplianceRequirement.article requirement;
     MappingEntry.title := ComplianceRequirement.title requirement;
     MappingEntry.description :=
       ComplianceRequirement.description requirement;
     MappingEntry.status :=
       ComplianceStatus_value (RequirementMapping.status mapping);
     MappingEntry.notes := RequirementMapping.notes mapping;
     MappingEntry.updated_at := RequirementMapping.updated_at mapping |}.

(** One if the two statuses are the same, zero otherwise. *)
Definition indicator (s1 s2 : ComplianceStatus) : Z :=
  if bool_decide (s1 = s2) then 1%Z else 0%Z.

(** ** Sample data *)

Definition sample_system (id : ident) (risk : RiskCategory) : AISystem.t :=
  {| AISystem.id := id;
     AISystem.name := "Credit scoring";
     AISystem.description := None;
     AISystem.risk_category := risk;
     AISystem.organization := Some "Hexidus";
     AISystem.department := None;
     AISystem.owner_email := None;
     AISystem.created_at := 10;
     AISystem.updated_at := 10 |}.

Definition sample_requirement (id article title : string)
    (applies_to : list string) : ComplianceRequirement.t :=
  {| ComplianceRequirement.id := id;
     ComplianceRequirement.article := article;
     ComplianceRequirement.title := title;
     ComplianceRequirement.description := title;
     ComplianceRequirement.applies_to :=
       Some (JArr (List.map JStr applies_to)) |}.

Definition sample_catalog : list ComplianceRequirement.t :=
  [ sample_requirement "req-9" "Article 9" "Risk management" ["high"];
    sample_requirement "req-13" "Article 13" "Transparency"
                       ["high"; "limited"];
    sample_requirement "req-52" "Article 52" "Disclosure" ["limited"] ].

Definition sample_mapping (id system requirement : ident)
    (status : ComplianceStatus) : RequirementMapping.t :=
  {| RequirementMapping.id := id;
     RequirementMapping.ai_system_id := system;
     RequirementMapping.requirement_id := requirement;
     RequirementMapping.status := status;
     RequirementMapping.notes := Some "initial review";
     RequirementMapping.updated_by := Some "ann@example.org";
     RequirementMapping.created_at := 20;
     RequirementMapping.updated_at := 30 |}.

(** A store with a system that has four tracking records and a system
    that has none. *)
Definition sample_db : DB :=
  {| ai_systems := [sample_system "sys-1" HIGH; sample_system "sys-2" MINIMAL];
     compliance_requirements :=
       sample_catalog ++
       [ sample_requirement "req-10" "Article 10" "Data governance" ["high"];
         sample_requirement "req-14" "Article 14" "Human oversight" ["high"] ];
     requirement_mappings :=
       [ sample_mapping "map-1" "sys-1" "req-9" COMPLETED;
         sample_mapping "map-2" "sys-1" "req-13" COMPLETED;
         sample_mapping "map-3" "sys-1" "req-10" IN_PROGRESS;
         sample_mapping "map-4" "sys-1" "req-14" NOT_STARTED ] |}.

Definition sample_update : RequirementStatusUpdate.t :=
  {| RequirementStatusUpdate.status := IN_PROGRESS;
     RequirementStatusUpdate.notes := None;
     RequirementStatusUpdate.updated_by := None |}.

Fixpoint sample_uuid (n : nat) : ident :=
  match n with
  | O => "uuid"
  | S k => String.app "x" (sample_uuid k)
  end.

Definition sample_oracle : Oracle :=
  {| uuid4 := sample_uuid;
     utcnow := fun n => (100 + Z.of_nat n)%Z |}.

Definition sample_noop : RequirementStatusUpdate.t :=
  {| RequirementStatusUpdate.status := NOT_STARTED;
     RequirementStatusUpdate.notes := None;
     RequirementStatusUpdate.updated_by := None |}.

Definition sample_create : AISystemCreate.t :=
  {| AISystemCreate.name := "Resume screening";
     AISystemCreate.description := None;
     AISystemCreate.risk_category := LIMITED;
     AISystemCreate.organization := None;
     AISystemCreate.department := None;
     AISystemCreate.owner_email := None |}.

(** The same catalog read in another order, in an empty store. *)
Definition sample_db_reversed : DB :=
  {| ai_systems := [];
     compliance_requirements := rev (compliance_requirements sample_db);
     requirement_mappings := [] |}.

Definition sample_oracle_2 : Oracle :=
  {| uuid4 := fun n => String.app "k" (sample_uuid n);
     utcnow := fun n => (500 + 2 * Z.of_nat n)%Z |}.

Definition sample_create_2 : AISystemCreate.t :=
  {| AISystemCreate.name := "Chat assistant";
     AISystemCreate.description := Some "Customer support";
     AISystemCreate.risk_category := LIMITED;
     AISystemCreate.organization := None;
     AISystemCreate.department := None;
     AISystemCreate.owner_email := None |}.

(** A registration whose catalog holds a row that does not decode: the
    request fails and the system is left visible without records. *)
Definition sample_db_unreadable : DB :=
  {| ai_systems := [];
     compliance_requirements :=
       sample_catalog ++
       [ {| ComplianceRequirement.id := "req-x";
            ComplianceRequirement.article := "Article 99";
            ComplianceRequirement.title := "Draft";
            ComplianceRequirement.description := "Draft";
            ComplianceRequirement.applies_to := None |} ];
     requirement_mappings := [] |}.

(** A freshly initialised store seeded with [sample_catalog]. *)
Definition sample_init : DB := init_db sample_catalog.

(** A store with a tracking record whose requirement is not in the
    catalog. *)
Definition sample_db_orphan : DB :=
  {| ai_systems := [sample_system "sys-1" HIGH];
     compliance_requirements := sample_catalog;
     requirement_mappings :=
       [ sample_mapping "map-1" "sys-1" "req-9" COMPLETED;
         sample_mapping "map-7" "sys-1" "req-gone" NOT_STARTED ] |}.

(** A store in which the key that [sample_oracle] draws for a system is
    taken: [sample_init] after the registration of [sample_create]. *)
Definition sample_db_taken : DB :=
  with_records
    (applicable_records sample_oracle "limited" "uuid" sample_catalog)
    (with_system (new_system sample_create sample_oracle) sample_init).

(** * Properties *)

(** Distinctness of the keys of a table that is written out. *)
Ltac distinct_keys := simpl; repeat constructor; simpl; intuition discriminate.

(** The four entries of a breakdown, from its entry for any status. *)
Ltac status_entries H Hc Hi Hs Hn :=
  pose proof (H COMPLETED) as Hc; pose proof (H IN_PROGRESS) as Hi;
  pose proof (H NOT_STARTED) as Hs; pose proof (H NON_COMPLIANT) as Hn;
  simpl in Hc, Hi, Hs, Hn.

(** ** Auxiliary facts on the error monad and on tables *)

Lemma bind_inr {A B : Type} (a : A) (k : A -> Error + B) :
  (inr a ≫= k) = k a.
Proof. reflexivity. Qed.

Lemma first_by_Some {A : Type} (key : A -> ident) k rows r :
  first_by key k rows = Some r -> In r rows /\ key r = k.
Proof.
  unfold first_by. intros H. apply find_some in H as [Hin Heq].
  split; [exact Hin | now apply String.eqb_eq].
Qed.

Lemma pk_taken_false {A : Type} (key : A -> ident) k rows :
  pk_taken key k rows = false <-> ~ In k (List.map key rows).
Proof.
  unfold pk_taken. induction rows as [|r rows IH]; simpl.
  - tauto.
  - rewrite orb_false_iff, IH, String.eqb_neq. tauto.
Qed.

Lemma filter_length_le {A : Type} (P : A -> bool) l :
  (length (List.filter P l) <= length l)%nat.
Proof.
  induction l as [|x l IH]; simpl; [lia|]. destruct (P x); simpl; lia.
Qed.

Lemma first_by_replace_row k row table old :
  first_by RequirementMapping.id k table = Some old ->
  RequirementMapping.id row = k ->
  first_by RequirementMapping.id k (replace_row k row table) = Some row.
Proof.
  unfold first_by, replace_row. intros Hfind Hid.
  induction table as [|m table IH]; simpl in *; [discriminate|].
  destruct (String.eqb (RequirementMapping.id m) k) eqn:E.
  - rewrite Hid, String.eqb_refl. reflexivity.
  - rewrite E. auto.
Qed.

(** ** The compliance summary *)

Lemma ComplianceStatus_value_inj s1 s2 :
  ComplianceStatus_value s1 = ComplianceStatus_value s2 -> s1 = s2.
Proof. destruct s1, s2; simpl; intros H; try reflexivity; discriminate. Qed.

Lemma count_key_value st mappings :
  count_key (ComplianceStatus_value st) mappings = count_status st mappings.
Proof.
  unfold count_key, count_status. f_equal. f_equal.
  apply filter_ext. intros m.
  destruct (String.eqb_spec
              (ComplianceStatus_value (RequirementMapping.status m))
              (ComplianceStatus_value st)) as [E|E].
  - apply ComplianceStatus_value_inj in E.
    symmetry. now apply bool_decide_eq_true.
  - symmetry. apply bool_decide_eq_false. intros E'. apply E. now rewrite E'.
Qed.

Lemma count_statuses_spec mappings (d : gmap string Z) :
  (forall st, is_Some (d !! ComplianceStatus_value st)) ->
  exists d',
    count_statuses mappings d = inr d' /\
    forall k, d' !! k = (fun n => (n + count_key k mappings)%Z) <$> (d !! k).
Proof.
  revert d. induction mappings as [|m mappings IH]; intros d Hkeys.
  - exists d. split; [reflexivity|]. intros k.
    unfold count_key. simpl. destruct (d !! k); simpl; f_equal; lia.
  - simpl. unfold dict_get.
    destruct (Hkeys (RequirementMapping.status m)) as [n Hn].
    rewrite Hn, bind_inr.
    destruct (IH (<[ComplianceStatus_value (RequirementMapping.status m)
                    := (n + 1)%Z]> d)) as (d' & Hrun & Hd').
    { intros st. rewrite lookup_insert. case_decide; eauto. }
    exists d'. split; [exact Hrun|]. intros k. rewrite Hd'.
    unfold count_key. simpl. rewrite lookup_insert.
    destruct (String.eqb_spec
                (ComplianceStatus_value (RequirementMapping.status m)) k)
      as [E|E].
    + subst k. rewrite decide_True by reflexivity. rewrite Hn. simpl.
      f_equal. lia.
    + rewrite decide_False by assumption. reflexivity.
Qed.

Lemma count_status_total mappings :
  (count_status NOT_STARTED mappings + count_status IN_PROGRESS mappings
   + count_status COMPLETED mappings + count_status NON_COMPLIANT mappings)%Z
  = Z.of_nat (length mappings).
Proof.
  unfold count_status. induction mappings as [|m mappings IH]; simpl.
  - reflexivity.
  - destruct (RequirementMapping.status m); simpl; lia.
Qed.

Lemma count_status_map st mappings :
  count_status st mappings
  = Z.of_nat (length (List.filter (fun s => bool_decide (s = st))
                        (List.map RequirementMapping.status mappings))).
Proof.
  unfold count_status. f_equal.
  induction mappings as [|m mappings IH]; simpl; [reflexivity|].
  destruct (bool_decide (RequirementMapping.status m = st)); simpl; lia.
Qed.

Lemma zero_counts_value st :
  zero_counts !! ComplianceStatus_value st = Some 0%Z.
Proof. destruct st; reflexivity. Qed.

Lemma zero_counts_keys k :
  is_Some (zero_counts !! k) -> exists st, k = ComplianceStatus_value st.
Proof.
  unfold zero_counts. rewrite !lookup_insert, lookup_empty.
  repeat case_decide; subst; intros [n Hn]; try discriminate.
  - now exists NOT_STARTED.
  - now exists IN_PROGRESS.
  - now exists COMPLETED.
  - now exists NON_COMPLIANT.
Qed.

(** The summary of a non-empty list of tracking records, in closed form. *)
Lemma summarize_nonempty system_id system mappings :
  mappings <> [] ->
  exists d,
    (forall k, d !! k
               = (fun n => (n + count_key k mappings)%Z) <$> (zero_counts !! k))
    /\ summarize system_id system mappings
       = inr {| ComplianceSummary.system_id := system_id;
                ComplianceSummary.system_name := AISystem.name system;
                ComplianceSummary.risk_category :=
                  RiskCategory_value (AISystem.risk_category system);
                ComplianceSummary.total_requirements :=
                  Z.of_nat (length mappings);
                ComplianceSummary.compliance_percentage :=
                  PyFloat (percentage_of (count_status COMPLETED mappings)
                                         (Z.of_nat (length mappings)));
                ComplianceSummary.status_breakdown := d;
                ComplianceSummary.requirements_completed :=
                  Some (count_status COMPLETED mappings);
                ComplianceSummary.requirements_in_progress :=
                  Some (count_status IN_PROGRESS mappings);
                ComplianceSummary.requirements_not_started :=
                  Some (count_status NOT_STARTED mappings);
                ComplianceSummary.requirements_non_compliant :=
                  Some (count_status NON_COMPLIANT mappings) |}.
Proof.
  intros Hne.
  destruct (count_statuses_spec mappings zero_counts) as (d & Hrun & Hd).
  { intros st. rewrite zero_counts_value. eauto. }
  exists d. split; [exact Hd|].
  assert (Hval : forall st,
             d !! ComplianceStatus_value st = Some (count_status st mappings)).
  { intros st. rewrite Hd, zero_counts_value. simpl.
    now rewrite count_key_value. }
  unfold summarize.
  destruct (Z.eqb_spec (Z.of_nat (length mappings)) 0) as [E|E].
  { destruct mappings; [contradiction | simpl in E; lia]. }
  fold zero_counts. rewrite Hrun, bind_inr.
  unfold dict_get.
  status_entries Hval Hc Hi Hs Hn. rewrite Hc, Hi, Hs, Hn.
  rewrite !bind_inr. unfold int_truediv.
  destruct (Z.eqb_spec (Z.of_nat (length mappings)) 0) as [E'|_];
    [contradiction|].
  rewrite bind_inr. reflexivity.
Qed.

Lemma summarize_empty system_id system :
  summarize system_id system []
  = inr {| ComplianceSummary.system_id := system_id;
           ComplianceSummary.system_name := AISystem.name system;
           ComplianceSummary.risk_category :=
             RiskCategory_value (AISystem.risk_category system);
           ComplianceSummary.total_requirements := 0;
           ComplianceSummary.compliance_percentage := PyInt 0;
           ComplianceSummary.status_breakdown := ∅;
           ComplianceSummary.requirements_completed := None;
           ComplianceSummary.requirements_in_progress := None;
           ComplianceSummary.requirements_not_started := None;
           ComplianceSummary.requirements_non_compliant := None |}.
Proof. reflexivity. Qed.

(** *** The percentage as a decimal *)

(** Up to 159 tracking records the percentage Python computes is the
    double nearest to the exactly rounded decimal. *)
Lemma percentage_of_decimal_below_160 (completed total : nat) :
  (0 < total < 160)%nat ->
  (completed <= total)%nat ->
  percentage_of (Z.of_nat completed) (Z.of_nat total)
  = float_of_hundredths
      (decimal_percentage (Z.of_nat completed) (Z.of_nat total)).
Proof.
  intros Ht Hc.
  assert (Hall :
    List.forallb
      (fun t => List.forallb (fun c => agrees_with_decimal c t) (seq 0 (S t)))
      (seq 1 159) = true) by (vm_compute; reflexivity).
  rewrite forallb_forall in Hall.
  specialize (Hall total). rewrite forallb_forall in Hall.
  assert (Ht' : In total (seq 1 159)) by (apply in_seq; lia).
  assert (Hc' : In completed (seq 0 (S total))) by (apply in_seq; lia).
  specialize (Hall Ht' completed Hc').
  unfold agrees_with_decimal in Hall. now apply bool_decide_eq_true in Hall.
Qed.

(** With 160 records the two can differ in the last digit: 23 of 160 is
    14.375 exactly, which rounds to 14.38, and Python's floats give 14.37. *)
Example percentage_of_23_of_160 :
  percentage_of 23 160 = float_of_hundredths 1437
  /\ decimal_percentage 23 160 = 1438%Z.
Proof. split; vm_compute; reflexivity. Qed.

(** *** The summary of a system *)

(** C3. For a system with at least one tracking record the summary
    succeeds and reports the number of records as total, a count for each
    of the four statuses and for no other key, the percentage
    [round((completed / total) * 100, 2)] of Python's floats, and the four
    counts once more as fields of their own.  With fewer than 160 records
    the percentage is the double nearest to the exact quotient rounded to
    two decimals.  For records with statuses completed, completed,
    in_progress, not_started the summary has total 4, completed 2,
    in_progress 1, not_started 1, non_compliant 0 and percentage 50.0. *)
Theorem summary_counts_every_status system_id db system :
  first_by AISystem.id system_id (ai_systems db) = Some system ->
  mappings_of system_id db <> [] ->
  exists summary,
    result (get_system_compliance system_id db) = inr summary /\
    ComplianceSummary.total_requirements summary
      = Z.of_nat (length (mappings_of system_id db)) /\
    (forall st,
        ComplianceSummary.status_breakdown summary
          !! ComplianceStatus_value st
        = Some (count_status st (mappings_of system_id db))) /\
    (forall k,
        is_Some (ComplianceSummary.status_breakdown summary !! k) ->
        exists st, k = ComplianceStatus_value st) /\
    ComplianceSummary.compliance_percentage summary
      = PyFloat (percentage_of
                   (count_status COMPLETED (mappings_of system_id db))
                   (Z.of_nat (length (mappings_of system_id db)))) /\
    ((length (mappings_of system_id db) < 160)%nat ->
     ComplianceSummary.compliance_percentage summary
       = PyFloat (float_of_hundredths
                    (decimal_percentage
                       (count_status COMPLETED (mappings_of system_id db))
                       (Z.of_nat (length (mappings_of system_id db)))))) /\
    ComplianceSummary.requirements_completed summary
      = Some (count_status COMPLETED (mappings_of system_id db)) /\
    ComplianceSummary.requirements_in_progress summary
      = Some (count_status IN_PROGRESS (mappings_of system_id db)) /\
    ComplianceSummary.requirements_not_started summary
      = Some (count_status NOT_STARTED (mappings_of system_id db)) /\
    ComplianceSummary.requirements_non_compliant summary
      = Some (count_status NON_COMPLIANT (mappings_of system_id db)) /\
    (List.map RequirementMapping.status (mappings_of system_id db)
       = [COMPLETED; COMPLETED; IN_PROGRESS; NOT_STARTED] ->
     ComplianceSummary.total_requirements summary = 4%Z /\
     ComplianceSummary.requirements_completed summary = Some 2%Z /\
     ComplianceSummary.requirements_in_progress summary = Some 1%Z /\
     ComplianceSummary.requirements_not_started summary = Some 1%Z /\
     ComplianceSummary.requirements_non_compliant summary = Some 0%Z /\
     ComplianceSummary.status_breakdown summary !! "completed" = Some 2%Z /\
     ComplianceSummary.status_breakdown summary !! "in_progress" = Some 1%Z /\
     ComplianceSummary.status_breakdown summary !! "not_started" = Some 1%Z /\
     ComplianceSummary.status_breakdown summary !! "non_compliant"
       = Some 0%Z /\
     ComplianceSummary.compliance_percentage summary
       = PyFloat (float_of_int 50)).
Proof.
  intros Hsys Hne.
  destruct (summarize_nonempty system_id system _ Hne) as (d & Hd & Hsum).
  assert (Hval : forall st,
             d !! ComplianceStatus_value st
             = Some (count_status st (mappings_of system_id db))).
  { intros st. rewrite Hd, zero_counts_value. simpl.
    now rewrite count_key_value. }
  eexists. unfold get_system_compliance. rewrite Hsys. simpl.
  split; [exact Hsum|]. simpl.
  split; [reflexivity|]. split; [exact Hval|].
  split.
  { intros k [n Hn]. apply zero_counts_keys. rewrite Hd in Hn.
    destruct (zero_counts !! k); [eauto | discriminate]. }
  split; [reflexivity|].
  split.
  { intros Hsmall. f_equal. unfold count_status.
    apply percentage_of_decimal_below_160; [|apply filter_length_le].
    split; [|exact Hsmall].
    destruct (mappings_of system_id db); [contradiction | simpl; lia]. }
  do 4 (split; [reflexivity|]).
  intros Hst.
  status_entries Hval Hc Hi Hs Hn. rewrite Hc, Hi, Hs, Hn.
  assert (Hlen : length (mappings_of system_id db) = 4%nat).
  { rewrite <- (length_map RequirementMapping.status), Hst. reflexivity. }
  rewrite !count_status_map, Hst, Hlen. simpl.
  repeat split; reflexivity.
Qed.

Lemma summary_counts_every_status_witness :
  exists summary,
    result (get_system_compliance "sys-1" sample_db) = inr summary /\
    ComplianceSummary.total_requirements summary = 4%Z /\
    ComplianceSummary.compliance_percentage summary
      = PyFloat (float_of_int 50).
Proof.
  destruct (summary_counts_every_status "sys-1" sample_db
              (sample_system "sys-1" HIGH))
    as (summary & Hres & _ & _ & _ & _ & _ & _ & _ & _ & _ & Hex).
  - reflexivity.
  - discriminate.
  - exists summary. split; [exact Hres|].
    destruct Hex as (Ht & _ & _ & _ & _ & _ & _ & _ & _ & Hp);
      [reflexivity|].
    split; assumption.
Defined.

(** C10. For a system with at least one tracking record the four counts
    of the breakdown add up to [total_requirements], and each of the
    fields [requirements_*] is the entry of the breakdown for its
    status. *)
Theorem summary_breakdown_sums_to_total system_id db system :
  first_by AISystem.id system_id (ai_systems db) = Some system ->
  mappings_of system_id db <> [] ->
  exists summary not_started in_progress completed non_compliant,
    result (get_system_compliance system_id db) = inr summary /\
    ComplianceSummary.status_breakdown summary !! "not_started"
      = Some not_started /\
    ComplianceSummary.status_breakdown summary !! "in_progress"
      = Some in_progress /\
    ComplianceSummary.status_breakdown summary !! "completed"
      = Some completed /\
    ComplianceSummary.status_breakdown summary !! "non_compliant"
      = Some non_compliant /\
    (not_started + in_progress + completed + non_compliant)%Z
      = ComplianceSummary.total_requirements summary /\
    ComplianceSummary.requirements_completed summary
      = ComplianceSummary.status_breakdown summary !! "completed" /\
    ComplianceSummary.requirements_in_progress summary
      = ComplianceSummary.status_breakdown summary !! "in_progress" /\
    ComplianceSummary.requirements_not_started summary
      = ComplianceSummary.status_breakdown summary !! "not_started" /\
    ComplianceSummary.requirements_non_compliant summary
      = ComplianceSummary.status_breakdown summary !! "non_compliant".
Proof.
  intros Hsys Hne.
  destruct (summarize_nonempty system_id system _ Hne) as (d & Hd & Hsum).
  assert (Hval : forall st,
             d !! ComplianceStatus_value st
             = Some (count_status st (mappings_of system_id db))).
  { intros st. rewrite Hd, zero_counts_value. simpl.
    now rewrite count_key_value. }
  status_entries Hval Hc Hi Hs Hn.
  do 5 eexists. unfold get_system_compliance. rewrite Hsys. simpl.
  split; [exact Hsum|]. simpl. rewrite Hc, Hi, Hs, Hn.
  do 4 (split; [reflexivity|]).
  split; [apply count_status_total|].
  repeat split; reflexivity.
Qed.

Lemma summary_breakdown_sums_to_total_witness :
  exists summary,
    result (get_system_compliance "sys-1" sample_db) = inr summary /\
    ComplianceSummary.requirements_completed summary
      = ComplianceSummary.status_breakdown summary !! "completed".
Proof.
  destruct (summary_breakdown_sums_to_total "sys-1" sample_db
              (sample_system "sys-1" HIGH))
    as (summary & ns & ip & c & nc & Hres & _ & _ & _ & _ & _ & Hc & _).
  - reflexivity.
  - discriminate.
  - exists summary. split; assumption.
Defined.

(** C4, as stated, fails: for the system "sys-2" of [sample_db], which has
    no tracking record, the breakdown has no entry for "completed". *)
Lemma empty_summary_not_zero_filled : ~ empty_summary_is_zero_filled.
Proof.
  intros H.
  destruct (H "sys-2" sample_db (sample_system "sys-2" MINIMAL)
              eq_refl eq_refl) as (summary & Hres & _ & _ & Hall).
  specialize (Hall COMPLETED).
  vm_compute in Hres. injection Hres as <-. discriminate Hall.
Qed.

(** C4, amended. For an existing system with no tracking record the
    summary succeeds and reports total 0, percentage 0 and an empty status
    breakdown: no status is a key of it, and the summary has none of the
    fields [requirements_*]. *)
Theorem empty_summary_has_empty_breakdown system_id db system :
  first_by AISystem.id system_id (ai_systems db) = Some system ->
  mappings_of system_id db = [] ->
  exists summary,
    result (get_system_compliance system_id db) = inr summary /\
    ComplianceSummary.total_requirements summary = 0%Z /\
    ComplianceSummary.compliance_percentage summary = PyInt 0 /\
    ComplianceSummary.status_breakdown summary = ∅ /\
    (forall k, ComplianceSummary.status_breakdown summary !! k = None) /\
    ComplianceSummary.requirements_completed summary = None /\
    ComplianceSummary.requirements_in_progress summary = None /\
    ComplianceSummary.requirements_not_started summary = None /\
    ComplianceSummary.requirements_non_compliant summary = None.
Proof.
  intros Hsys Hnone. eexists.
  unfold get_system_compliance. rewrite Hsys, Hnone. simpl.
  split; [apply summarize_empty|]. simpl.
  repeat split; try reflexivity.
Qed.

Lemma empty_summary_has_empty_breakdown_witness :
  exists summary,
    result (get_system_compliance "sys-2" sample_db) = inr summary /\
    ComplianceSummary.status_breakdown summary = ∅.
Proof.
  destruct (empty_summary_has_empty_breakdown "sys-2" sample_db
              (sample_system "sys-2" MINIMAL))
    as (summary & Hres & _ & _ & Hempty & _).
  - reflexivity.
  - reflexivity.
  - exists summary. split; assumption.
Defined.

(** ** Status updates *)

Lemma first_by_absent {A : Type} (key : A -> ident) k rows :
  ~ In k (List.map key rows) -> first_by key k rows = None.
Proof.
  intros Hnot. unfold first_by.
  destruct (find _ rows) as [r|] eqn:E; [|reflexivity].
  apply find_some in E as [Hin Heq]. apply String.eqb_eq in Heq.
  exfalso. apply Hnot. rewrite <- Heq. now apply in_map.
Qed.

Lemma flush_update_frame o update mapping :
  let mapping' := flush_update o mapping (apply_update update mapping) in
  RequirementMapping.id mapping' = RequirementMapping.id mapping /\
  RequirementMapping.ai_system_id mapping'
    = RequirementMapping.ai_system_id mapping /\
  RequirementMapping.requirement_id mapping'
    = RequirementMapping.requirement_id mapping /\
  RequirementMapping.created_at mapping'
    = RequirementMapping.created_at mapping.
Proof.
  unfold flush_update.
  destruct (net_change mapping (apply_update update mapping)); simpl; auto.
Qed.

Lemma flush_update_values o update mapping :
  let mapping' := flush_update o mapping (apply_update update mapping) in
  RequirementMapping.status mapping' = RequirementStatusUpdate.status update /\
  RequirementMapping.notes mapping'
    = RequirementMapping.notes (apply_update update mapping) /\
  RequirementMapping.updated_by mapping'
    = RequirementMapping.updated_by (apply_update update mapping).
Proof.
  unfold flush_update, net_change.
  case_bool_decide as Hsame; simpl; [|auto].
  destruct Hsame as (Hs & Hn & Hu). simpl in Hs. auto.
Qed.

(** The store and the result of an update of an existing record. *)
Lemma update_existing mapping_id update db o mapping :
  first_by RequirementMapping.id mapping_id (requirement_mappings db)
    = Some mapping ->
  let out := update_requirement_status mapping_id update db o in
  let mapping' := flush_update o mapping (apply_update update mapping) in
  first_by RequirementMapping.id mapping_id
    (requirement_mappings (final_state db out)) = Some mapping' /\
  forall requirement,
    first_by ComplianceRequirement.id
      (RequirementMapping.requirement_id mapping)
      (compliance_requirements db) = Some requirement ->
    exists response,
      result out = inr response /\
      StatusUpdateResponse.old_status response
        = ComplianceStatus_value (RequirementMapping.status mapping) /\
      StatusUpdateResponse.new_status response
        = ComplianceStatus_value (RequirementStatusUpdate.status update) /\
      StatusUpdateResponse.updated_at response
        = RequirementMapping.updated_at mapping'.
Proof.
  intros Hmap out mapping'.
  destruct (flush_update_frame o update mapping) as (Hid & _ & Hreq & _).
  destruct (flush_update_values o update mapping) as (Hst & _ & _).
  destruct (first_by_Some _ _ _ _ Hmap) as [_ Hkey].
  assert (Hrow : first_by RequirementMapping.id mapping_id
                   (replace_row mapping_id mapping' (requirement_mappings db))
                 = Some mapping').
  { apply (first_by_replace_row _ _ _ mapping Hmap).
    unfold mapping'. now rewrite Hid. }
  subst out. unfold update_requirement_status. rewrite Hmap.
  fold mapping'. simpl. fold mapping' in Hreq, Hst. rewrite Hreq.
  split.
  - destruct (first_by ComplianceRequirement.id _ _); exact Hrow.
  - intros requirement Hr. rewrite Hr. eexists. split; [reflexivity|].
    simpl. rewrite Hst. auto.
Qed.

(** C7. A summary, a lookup or a listing of tracking records for an
    identifier that no system has, and a status update for an identifier
    that no tracking record has, raise the 404 error and commit nothing:
    the store is as it was. *)
Theorem not_found_changes_nothing system_id mapping_id update db o :
  ~ In system_id (List.map AISystem.id (ai_systems db)) ->
  ~ In mapping_id (List.map RequirementMapping.id (requirement_mappings db)) ->
  (result (get_system_compliance system_id db)
     = inl (HTTPException 404 "AI system not found") /\
   commits (get_system_compliance system_id db) = [] /\
   final_state db (get_system_compliance system_id db) = db) /\
  (result (get_ai_system system_id db)
     = inl (HTTPException 404 "AI system not found") /\
   commits (get_ai_system system_id db) = [] /\
   final_state db (get_ai_system system_id db) = db) /\
  (result (get_system_requirements system_id db)
     = inl (HTTPException 404 "AI system not found") /\
   commits (get_system_requirements system_id db) = [] /\
   final_state db (get_system_requirements system_id db) = db) /\
  (result (update_requirement_status mapping_id update db o)
     = inl (HTTPException 404 "Requirement mapping not found") /\
   commits (update_requirement_status mapping_id update db o) = [] /\
   final_state db (update_requirement_status mapping_id update db o) = db).
Proof.
  intros Hsys Hmap.
  apply first_by_absent in Hsys. apply first_by_absent in Hmap.
  unfold get_system_compliance, get_ai_system, get_system_requirements,
    update_requirement_status, final_state.
  rewrite Hsys, Hmap. simpl. repeat split; reflexivity.
Qed.

Lemma not_found_changes_nothing_witness :
  result (get_system_compliance "sys-404" sample_db)
    = inl (HTTPException 404 "AI system not found") /\
  final_state sample_db
    (update_requirement_status "map-404" sample_update sample_db sample_oracle)
    = sample_db.
Proof.
  destruct (not_found_changes_nothing "sys-404" "map-404" sample_update
              sample_db sample_oracle)
    as ((Hres & _) & _ & _ & (_ & _ & Hfin)).
  - simpl. intros H. repeat (destruct H as [H|H]; [discriminate|]). exact H.
  - simpl. intros H. repeat (destruct H as [H|H]; [discriminate|]). exact H.
  - split; assumption.
Defined.

(** C6. An update of an existing tracking record leaves the stored notes
    as they were when it carries no notes and the stored updater as it was
    when it carries no updater; notes or an updater that it carries
    replace the stored ones; the key, the system, the requirement and the
    creation time of the record stay the same. *)
Theorem update_overwrites_only_provided mapping_id update db o mapping :
  first_by RequirementMapping.id mapping_id (requirement_mappings db)
    = Some mapping ->
  exists mapping',
    first_by RequirementMapping.id mapping_id
      (requirement_mappings
         (final_state db (update_requirement_status mapping_id update db o)))
      = Some mapping' /\
    (RequirementStatusUpdate.notes update = None ->
     RequirementMapping.notes mapping' = RequirementMapping.notes mapping) /\
    (RequirementStatusUpdate.updated_by update = None ->
     RequirementMapping.updated_by mapping'
       = RequirementMapping.updated_by mapping) /\
    (forall notes,
        RequirementStatusUpdate.notes update = Some notes ->
        RequirementMapping.notes mapping' = Some notes) /\
    (forall updated_by,
        RequirementStatusUpdate.updated_by update = Some updated_by ->
        RequirementMapping.updated_by mapping' = Some updated_by) /\
    RequirementMapping.id mapping' = RequirementMapping.id mapping /\
    RequirementMapping.ai_system_id mapping'
      = RequirementMapping.ai_system_id mapping /\
    RequirementMapping.requirement_id mapping'
      = RequirementMapping.requirement_id mapping /\
    RequirementMapping.created_at mapping'
      = RequirementMapping.created_at mapping.
Proof.
  intros Hmap.
  destruct (update_existing mapping_id update db o mapping Hmap) as [Hrow _].
  destruct (flush_update_frame o update mapping) as (Hid & Hsys & Hreq & Hcr).
  destruct (flush_update_values o update mapping) as (_ & Hn & Hu).
  eexists. split; [exact Hrow|].
  rewrite Hn, Hu. simpl.
  split; [intros ->; reflexivity|]. split; [intros ->; reflexivity|].
  split; [intros notes ->; reflexivity|].
  split; [intros updated_by ->; reflexivity|].
  auto.
Qed.

Lemma update_overwrites_only_provided_witness :
  exists mapping',
    first_by RequirementMapping.id "map-4"
      (requirement_mappings
         (final_state sample_db
            (update_requirement_status "map-4" sample_update sample_db
               sample_oracle)))
      = Some mapping' /\
    RequirementMapping.notes mapping' = Some "initial review" /\
    RequirementMapping.updated_by mapping' = Some "ann@example.org".
Proof.
  destruct (update_overwrites_only_provided "map-4" sample_update sample_db
              sample_oracle (sample_mapping "map-4" "sys-1" "req-14"
                               NOT_STARTED))
    as (mapping' & Hrow & Hn & Hu & _).
  - reflexivity.
  - exists mapping'. split; [exact Hrow|].
    split; [apply Hn | apply Hu]; reflexivity.
Defined.

Lemma net_change_spec update mapping :
  net_change mapping (apply_update update mapping) = true
  <-> changes_record update mapping.
Proof.
  unfold net_change, changes_record. rewrite negb_true_iff.
  rewrite bool_decide_eq_false. simpl.
  destruct (RequirementStatusUpdate.notes update) as [n|],
    (RequirementStatusUpdate.updated_by update) as [u|]; split.
  - intros H.
    destruct (decide (RequirementStatusUpdate.status update
                      = RequirementMapping.status mapping)) as [Es|Es];
      [|now left].
    destruct (decide (RequirementMapping.notes mapping = Some n)) as [En|En];
      [|right; left; eauto].
    destruct (decide (RequirementMapping.updated_by mapping = Some u))
      as [Eu|Eu]; [|right; right; eauto].
    exfalso. apply H. auto.
  - intros [H|[(n' & [= <-] & H)|(u' & [= <-] & H)]] (Hs & Hn & Hu);
      congruence.
  - intros H.
    destruct (decide (RequirementStatusUpdate.status update
                      = RequirementMapping.status mapping)) as [Es|Es];
      [|now left].
    destruct (decide (RequirementMapping.notes mapping = Some n)) as [En|En];
      [|right; left; eauto].
    exfalso. apply H. auto.
  - intros [H|[(n' & [= <-] & H)|(u' & [=] & H)]] (Hs & Hn & Hu);
      congruence.
  - intros H.
    destruct (decide (RequirementStatusUpdate.status update
                      = RequirementMapping.status mapping)) as [Es|Es];
      [|now left].
    destruct (decide (RequirementMapping.updated_by mapping = Some u))
      as [Eu|Eu]; [|right; right; eauto].
    exfalso. apply H. auto.
  - intros [H|[(n' & [=] & H)|(u' & [= <-] & H)]] (Hs & Hn & Hu);
      congruence.
  - intros H.
    destruct (decide (RequirementStatusUpdate.status update
                      = RequirementMapping.status mapping)) as [Es|Es];
      [|now left].
    exfalso. apply H. auto.
  - intros [H|[(n' & [=] & H)|(u' & [=] & H)]] (Hs & Hn & Hu);
      congruence.
Qed.

(** C8, as stated, fails: the update of "map-4" in [sample_db] to the
    status it has, without notes and updater, succeeds at time 100 and
    leaves the record stamped 30. *)
Lemma noop_update_keeps_timestamp : ~ every_update_stamps_record.
Proof.
  intros H.
  destruct (H "map-4" sample_noop sample_db sample_oracle) with
    (response :=
       {| StatusUpdateResponse.mapping_id := "map-4";
          StatusUpdateResponse.requirement_id := "req-14";
          StatusUpdateResponse.article := "Article 14";
          StatusUpdateResponse.title := "Human oversight";
          StatusUpdateResponse.old_status := "not_started";
          StatusUpdateResponse.new_status := "not_started";
          StatusUpdateResponse.notes := Some "initial review";
          StatusUpdateResponse.updated_by := Some "ann@example.org";
          StatusUpdateResponse.updated_at := 30%Z |})
    as (mapping' & Hrow & Hstamp).
  - reflexivity.
  - vm_compute in Hrow. injection Hrow as <-. discriminate Hstamp.
Qed.

(** C8, amended. An update of an existing tracking record whose
    requirement is in the catalog succeeds and returns the status the
    record had and the status it has now.  When the update carries a
    status, notes or an updater that differ from the stored ones, the
    record is stamped with the time of the update; when it carries none,
    the last-modified time of the record stays as it was. *)
Theorem update_reports_transition mapping_id update db o mapping requirement :
  first_by RequirementMapping.id mapping_id (requirement_mappings db)
    = Some mapping ->
  first_by ComplianceRequirement.id
    (RequirementMapping.requirement_id mapping)
    (compliance_requirements db) = Some requirement ->
  exists response mapping',
    result (update_requirement_status mapping_id update db o)
      = inr response /\
    StatusUpdateResponse.old_status response
      = ComplianceStatus_value (RequirementMapping.status mapping) /\
    StatusUpdateResponse.new_status response
      = ComplianceStatus_value (RequirementStatusUpdate.status update) /\
    first_by RequirementMapping.id mapping_id
      (requirement_mappings
         (final_state db (update_requirement_status mapping_id update db o)))
      = Some mapping' /\
    StatusUpdateResponse.updated_at response
      = RequirementMapping.updated_at mapping' /\
    (changes_record update mapping ->
     RequirementMapping.updated_at mapping' = utcnow o 0) /\
    (~ changes_record update mapping ->
     RequirementMapping.updated_at mapping'
       = RequirementMapping.updated_at mapping).
Proof.
  intros Hmap Hreq.
  destruct (update_existing mapping_id update db o mapping Hmap)
    as [Hrow Hres].
  destruct (Hres requirement Hreq) as (response & Hr & Hold & Hnew & Hat).
  exists response. eexists.
  split; [exact Hr|]. split; [exact Hold|]. split; [exact Hnew|].
  split; [exact Hrow|]. split; [exact Hat|].
  unfold flush_update.
  destruct (net_change mapping (apply_update update mapping)) eqn:E.
  - split; [reflexivity|]. intros Hno. exfalso. apply Hno.
    now apply net_change_spec.
  - split; [|reflexivity]. intros Hch. apply net_change_spec in Hch.
    congruence.
Qed.

Lemma update_reports_transition_witness :
  exists response,
    result (update_requirement_status "map-4" sample_update sample_db
              sample_oracle) = inr response /\
    StatusUpdateResponse.old_status response = "not_started" /\
    StatusUpdateResponse.new_status response = "in_progress" /\
    StatusUpdateResponse.updated_at response = 100%Z.
Proof.
  destruct (update_reports_transition "map-4" sample_update sample_db
              sample_oracle
              (sample_mapping "map-4" "sys-1" "req-14" NOT_STARTED)
              (sample_requirement "req-14" "Article 14" "Human oversight"
                 ["high"]))
    as (response & mapping' & Hr & Hold & Hnew & _ & Hat & Hch & _).
  - reflexivity.
  - reflexivity.
  - exists response. split; [exact Hr|]. split; [exact Hold|].
    split; [exact Hnew|]. rewrite Hat. apply Hch. left. discriminate.
Defined.

(** ** Registration *)

Lemma assign_requirements_inr risk system_id catalog acc pending :
  assign_requirements risk system_id catalog acc = inr pending ->
  pending
  = acc ++ List.map (new_pending system_id)
                    (List.filter (applies_to_risk risk) catalog).
Proof.
  revert acc. induction catalog as [|q catalog IH]; intros acc H; simpl in *.
  - injection H as <-. now rewrite app_nil_r.
  - unfold applies_to_risk at 1.
    destruct (json_loads (ComplianceRequirement.applies_to q)) as [e|v];
      simpl in H; [discriminate|]. simpl.
    destruct (py_in risk v) as [e|[|]]; simpl in H; [discriminate| |].
    + apply IH in H. rewrite H, <- app_assoc. reflexivity.
    + now apply IH.
Qed.

Lemma assign_requirements_decodes risk system_id catalog acc :
  catalog_decodes catalog ->
  assign_requirements risk system_id catalog acc
  = inr (acc ++ List.map (new_pending system_id)
                         (List.filter (applies_to_risk risk) catalog)).
Proof.
  intros Hdec. revert acc.
  induction Hdec as [|q catalog (items & Hq) _ IH]; intros acc; simpl.
  - now rewrite app_nil_r.
  - unfold applies_to_risk at 1. rewrite Hq. simpl.
    destruct (existsb (str_eq_json risk) items).
    + rewrite IH, <- app_assoc. reflexivity.
    + apply IH.
Qed.

Lemma applies_to_risk_member r q :
  (exists items, ComplianceRequirement.applies_to q = Some (JArr items)) ->
  applies_to_risk (RiskCategory_value r) q = true <-> in_applicability_set r q.
Proof.
  intros (items & Hq). unfold applies_to_risk, in_applicability_set.
  rewrite Hq. simpl. rewrite existsb_exists. split.
  - intros (v & Hin & Hv). exists items. split; [reflexivity|].
    destruct v; simpl in Hv; try discriminate.
    apply String.eqb_eq in Hv. now subst.
  - intros (items' & [= <-] & Hin). exists (JStr (RiskCategory_value r)).
    split; [exact Hin|]. simpl. apply String.eqb_refl.
Qed.

Lemma insert_mappings_Some o n pending table table' :
  insert_mappings o n pending table = Some table' ->
  table' = table ++ flush_all o n pending.
Proof.
  revert n table. induction pending as [|p pending IH]; intros n table H;
    simpl in *.
  - injection H as <-. now rewrite app_nil_r.
  - destruct (pk_taken _ _ table); [discriminate|].
    apply IH in H. rewrite H, <- app_assoc. reflexivity.
Qed.

Lemma insert_mappings_fresh o n pending table :
  List.NoDup (List.map (uuid4 o) (seq n (length pending))) ->
  (forall i, (n <= i < n + length pending)%nat ->
             ~ In (uuid4 o i) (List.map RequirementMapping.id table)) ->
  insert_mappings o n pending table = Some (table ++ flush_all o n pending).
Proof.
  revert n table. induction pending as [|p pending IH];
    intros n table Hnd Hfresh; simpl in *.
  - now rewrite app_nil_r.
  - assert (Hfree : pk_taken RequirementMapping.id (uuid4 o n) table = false).
    { apply pk_taken_false. apply Hfresh. lia. }
    rewrite Hfree. inversion Hnd as [|k ks Hk Hks]; subst.
    rewrite IH.
    + now rewrite <- app_assoc.
    + exact Hks.
    + intros i Hi. rewrite map_app, in_app_iff. simpl.
      intros [Hin|[Heq|[]]].
      * apply (Hfresh i); [lia | exact Hin].
      * apply Hk. rewrite Heq. apply in_map. apply in_seq. lia.
Qed.

Lemma NoDup_map_seq_prefix {A : Type} (f : nat -> A) a m n :
  (m <= n)%nat ->
  List.NoDup (List.map f (seq a n)) -> List.NoDup (List.map f (seq a m)).
Proof.
  intros Hle Hnd. replace n with (m + (n - m))%nat in Hnd by lia.
  rewrite seq_app, map_app in Hnd. now apply NoDup_app_remove_r in Hnd.
Qed.

(** A registration whose first commit goes through ends in one of three
    ways; a taken key for the system ends it before any commit. *)
Lemma create_ai_system_cases system db o :
  let db_system := new_system system o in
  let risk := RiskCategory_value (AISystemCreate.risk_category system) in
  let db1 := with_system db_system db in
  let out := create_ai_system system db o in
  (pk_taken AISystem.id (uuid4 o 0) (ai_systems db) = true /\
   out = mkOutcome (raise IntegrityError) [])
  \/ (pk_taken AISystem.id (uuid4 o 0) (ai_systems db) = false /\
      exists e,
        assign_requirements risk (uuid4 o 0) (compliance_requirements db) []
          = inl e /\
        out = mkOutcome (raise e) [db1])
  \/ (pk_taken AISystem.id (uuid4 o 0) (ai_systems db) = false /\
      insert_mappings o 1
        (List.map (new_pending (uuid4 o 0))
           (List.filter (applies_to_risk risk) (compliance_requirements db)))
        (requirement_mappings db) = None /\
      out = mkOutcome (raise IntegrityError) [db1])
  \/ (pk_taken AISystem.id (uuid4 o 0) (ai_systems db) = false /\
      assign_requirements risk (uuid4 o 0) (compliance_requirements db) []
        = inr (List.map (new_pending (uuid4 o 0))
                 (List.filter (applies_to_risk risk)
                    (compliance_requirements db))) /\
      insert_mappings o 1
        (List.map (new_pending (uuid4 o 0))
           (List.filter (applies_to_risk risk) (compliance_requirements db)))
        (requirement_mappings db)
        = Some (requirement_mappings db
                ++ applicable_records o risk (uuid4 o 0)
                     (compliance_requirements db)) /\
      out = mkOutcome (inr (to_response db_system))
              [db1;
               with_records
                 (applicable_records o risk (uuid4 o 0)
                    (compliance_requirements db)) db1]).
Proof.
  intros db_system risk db1 out. subst out.
  unfold create_ai_system, insert_system. fold db_system. simpl.
  destruct (pk_taken AISystem.id (uuid4 o 0) (ai_systems db)) eqn:Hpk;
    [left; auto|]. right. simpl. fold risk. fold (with_system db_system db).
  fold db1.
  destruct (assign_requirements risk (uuid4 o 0)
              (compliance_requirements db) []) as [e|pending] eqn:Hassign.
  { left. split; [reflexivity|]. exists e. auto. }
  right. pose proof (assign_requirements_inr _ _ _ _ _ Hassign) as Hpending.
  simpl in Hpending. subst pending.
  destruct (insert_mappings o 1 _ (requirement_mappings db))
    as [table|] eqn:Hins.
  - right. split; [reflexivity|]. split; [reflexivity|].
    pose proof (insert_mappings_Some _ _ _ _ _ Hins) as Htable.
    subst table. split; reflexivity.
  - left. auto.
Qed.

(** The records a flush makes, seen through the requirements they are for. *)
Lemma flush_all_In o n system_id (reqs : list ComplianceRequirement.t) m :
  In m (flush_all o n (List.map (new_pending system_id) reqs)) ->
  exists q,
    In q reqs /\
    RequirementMapping.ai_system_id m = system_id /\
    RequirementMapping.requirement_id m = ComplianceRequirement.id q /\
    RequirementMapping.status m = NOT_STARTED /\
    RequirementMapping.notes m = None /\
    RequirementMapping.updated_by m = None.
Proof.
  revert n. induction reqs as [|q reqs IH]; intros n; simpl; [tauto|].
  intros [<-|Hin].
  - exists q. simpl. tauto.
  - destruct (IH _ Hin) as (q' & Hq' & H). exists q'. tauto.
Qed.

Lemma flush_all_requirement_ids o n system_id
    (reqs : list ComplianceRequirement.t) :
  List.map RequirementMapping.requirement_id
    (flush_all o n (List.map (new_pending system_id) reqs))
  = List.map ComplianceRequirement.id reqs.
Proof.
  revert n. induction reqs as [|q reqs IH]; intros n; simpl; [reflexivity|].
  now rewrite IH.
Qed.

Lemma flush_all_links o n system_id (reqs : list ComplianceRequirement.t) k :
  length (List.filter (links system_id k)
            (flush_all o n (List.map (new_pending system_id) reqs)))
  = length (List.filter
              (fun q => String.eqb (ComplianceRequirement.id q) k) reqs).
Proof.
  revert n. induction reqs as [|q reqs IH]; intros n; simpl; [reflexivity|].
  unfold links at 1. simpl. rewrite String.eqb_refl. simpl.
  destruct (String.eqb (ComplianceRequirement.id q) k); simpl; now rewrite IH.
Qed.

Lemma filter_key_absent {A : Type} (key : A -> ident) (P : A -> bool) k l :
  ~ In k (List.map key l) ->
  List.filter (fun x => String.eqb (key x) k) (List.filter P l) = [].
Proof.
  induction l as [|x l IH]; simpl; [reflexivity|]. intros Hnot.
  destruct (P x); simpl.
  - destruct (String.eqb_spec (key x) k) as [E|E]; [tauto|]. apply IH. tauto.
  - apply IH. tauto.
Qed.

Lemma filter_key_unique {A : Type} (key : A -> ident) (P : A -> bool) q l :
  List.NoDup (List.map key l) ->
  In q l ->
  length (List.filter (fun x => String.eqb (key x) (key q)) (List.filter P l))
  = if P q then 1%nat else 0%nat.
Proof.
  induction l as [|x l IH]; simpl; [tauto|].
  intros Hnd [->|Hin]; inversion Hnd as [|k ks Hk Hks]; subst.
  - destruct (P q); simpl.
    + rewrite String.eqb_refl. simpl. now rewrite filter_key_absent.
    + now rewrite filter_key_absent.
  - assert (Hne : key x <> key q).
    { intros E. apply Hk. rewrite E. now apply in_map. }
    destruct (P x); simpl.
    + apply String.eqb_neq in Hne. rewrite Hne. now apply IH.
    + now apply IH.
Qed.

(** *** Registrations that go through

    The catalog decodes and the identifiers drawn are fresh. *)

Section Registered.

Variable system : AISystemCreate.t.
Variable db : DB.
Variable o : Oracle.
Hypothesis catalog_ok : catalog_decodes (compliance_requirements db).
Hypothesis keys_fresh : fresh_keys o db.

(** With a catalog that decodes and fresh identifiers the registration
    goes through both commits. *)
Lemma create_ai_system_ok :
  let db_system := new_system system o in
  let risk := RiskCategory_value (AISystemCreate.risk_category system) in
  let records :=
    applicable_records o risk (uuid4 o 0) (compliance_requirements db) in
  create_ai_system system db o
  = mkOutcome (inr (to_response db_system))
      [with_system db_system db;
       with_records records (with_system db_system db)].
Proof.
  intros db_system risk records.
  destruct keys_fresh as (Hsys & Hnd & Hfresh).
  assert (Hpk : pk_taken AISystem.id (uuid4 o 0) (ai_systems db) = false)
    by now apply pk_taken_false.
  assert (Hlen :
    (length (List.map (new_pending (uuid4 o 0))
               (List.filter (applies_to_risk risk)
                  (compliance_requirements db)))
     <= length (compliance_requirements db))%nat).
  { rewrite length_map. apply filter_length_le. }
  destruct (create_ai_system_cases system db o)
    as [[H _]|[(_ & e & H & _)|[(_ & H & _)|(_ & _ & _ & H)]]].
  - congruence.
  - fold risk in H.
    rewrite (assign_requirements_decodes _ _ _ _ catalog_ok) in H.
    discriminate.
  - fold risk in H. rewrite insert_mappings_fresh in H; [discriminate| |].
    + eapply NoDup_map_seq_prefix; [exact Hlen | exact Hnd].
    + intros i Hi. apply Hfresh. lia.
  - exact H.
Qed.

Lemma created_records_ok :
  created_records db (create_ai_system system db o)
  = applicable_records o
      (RiskCategory_value (AISystemCreate.risk_category system))
      (uuid4 o 0) (compliance_requirements db).
Proof.
  rewrite create_ai_system_ok.
  unfold created_records, final_state. simpl.
  rewrite skipn_app, skipn_all, Nat.sub_diag. reflexivity.
Qed.

(** C1. With a catalog whose rows have distinct keys and store JSON arrays,
    and identifiers that are not in use, registering a system of category
    [r] succeeds, and for every requirement [q] of the catalog the
    registration creates one tracking record that links the system and
    [q] when [r] is in the applicability set of [q] and none otherwise.
    Every record it creates is for the new system and for a requirement
    that applies, has status not_started, no notes and no updater. *)
Theorem registration_assigns_applicable :
  List.NoDup
    (List.map ComplianceRequirement.id (compliance_requirements db)) ->
  exists response,
    result (create_ai_system system db o) = inr response /\
    (forall q,
        In q (compliance_requirements db) ->
        (length (List.filter
                   (links (AISystemResponse.id response)
                          (ComplianceRequirement.id q))
                   (created_records db (create_ai_system system db o)))
         = 1%nat
         <-> in_applicability_set (AISystemCreate.risk_category system) q) /\
        (length (List.filter
                   (links (AISystemResponse.id response)
                          (ComplianceRequirement.id q))
                   (created_records db (create_ai_system system db o)))
         <= 1)%nat) /\
    (forall m,
        In m (created_records db (create_ai_system system db o)) ->
        RequirementMapping.ai_system_id m = AISystemResponse.id response /\
        (exists q,
            In q (compliance_requirements db) /\
            RequirementMapping.requirement_id m = ComplianceRequirement.id q /\
            in_applicability_set (AISystemCreate.risk_category system) q) /\
        RequirementMapping.status m = NOT_STARTED /\
        RequirementMapping.notes m = None /\
        RequirementMapping.updated_by m = None).
Proof.
  intros Hnd. rewrite created_records_ok, create_ai_system_ok. simpl.
  eexists. split; [reflexivity|]. simpl. unfold applicable_records. split.
  - intros q Hq. rewrite flush_all_links.
    rewrite (filter_key_unique ComplianceRequirement.id _ q _ Hnd Hq).
    assert (Harr : exists items,
               ComplianceRequirement.applies_to q = Some (JArr items))
      by exact (proj1 (List.Forall_forall _ _) catalog_ok q Hq).
    rewrite <- (applies_to_risk_member _ _ Harr).
    destruct (applies_to_risk _ q); split; try lia; try tauto.
  - intros m Hm. apply flush_all_In in Hm
      as (q & Hq & Hsys & Hreq & Hst & Hno & Hup).
    apply filter_In in Hq as [Hq Happ].
    split; [exact Hsys|]. split; [|auto].
    exists q. split; [exact Hq|]. split; [exact Hreq|].
    apply applies_to_risk_member; [|exact Happ].
    exact (proj1 (List.Forall_forall _ _) catalog_ok q Hq).
Qed.

End Registered.

Lemma sample_db_keys :
  List.NoDup
    (List.map ComplianceRequirement.id (compliance_requirements sample_db)).
Proof. distinct_keys. Qed.

Lemma sample_db_decodes : catalog_decodes (compliance_requirements sample_db).
Proof. repeat constructor; eexists; reflexivity. Qed.

Lemma sample_oracle_fresh : fresh_keys sample_oracle sample_db.
Proof.
  split; [|split].
  - simpl. intuition discriminate.
  - distinct_keys.
  - simpl. intros n Hn.
    assert (Hcases : (n = 1 \/ n = 2 \/ n = 3 \/ n = 4 \/ n = 5)%nat) by lia.
    destruct Hcases as [-> | [-> | [-> | [-> | ->]]]]; simpl;
      intuition discriminate.
Qed.

Lemma registration_assigns_applicable_witness :
  exists response,
    result (create_ai_system sample_create sample_db sample_oracle)
      = inr response /\
    length (List.filter (links (AISystemResponse.id response) "req-13")
              (created_records sample_db
                 (create_ai_system sample_create sample_db sample_oracle)))
    = 1%nat.
Proof.
  destruct (registration_assigns_applicable sample_create sample_db
              sample_oracle sample_db_decodes sample_oracle_fresh
              sample_db_keys) as (response & Hres & Hcount & _).
  exists response. split; [exact Hres|].
  apply (Hcount (sample_requirement "req-13" "Article 13" "Transparency"
                   ["high"; "limited"])).
  - simpl. tauto.
  - eexists. split; [reflexivity|]. simpl. tauto.
Defined.

(** C9. Two registrations of systems of the same category against the same
    catalog, read in any order of its rows, with any identifiers and clock
    readings and in any stores, both succeed and create tracking records
    for the same set of requirements. *)
Theorem registration_is_deterministic system1 system2 db1 db2 o1 o2 :
  AISystemCreate.risk_category system1 = AISystemCreate.risk_category system2 ->
  Permutation (compliance_requirements db1) (compliance_requirements db2) ->
  catalog_decodes (compliance_requirements db1) ->
  fresh_keys o1 db1 ->
  fresh_keys o2 db2 ->
  (exists response1 response2,
      result (create_ai_system system1 db1 o1) = inr response1 /\
      result (create_ai_system system2 db2 o2) = inr response2) /\
  (list_to_set
     (List.map RequirementMapping.requirement_id
        (created_records db1 (create_ai_system system1 db1 o1)))
   : gset ident)
  = list_to_set
      (List.map RequirementMapping.requirement_id
         (created_records db2 (create_ai_system system2 db2 o2))).
Proof.
  intros Hrisk Hperm Hdec1 Hfresh1 Hfresh2.
  assert (Hdec2 : catalog_decodes (compliance_requirements db2)).
  { unfold catalog_decodes in *. apply List.Forall_forall. intros q Hq.
    apply (proj1 (List.Forall_forall _ _) Hdec1).
    eapply Permutation_in; [symmetry; exact Hperm | exact Hq]. }
  rewrite !created_records_ok by assumption.
  rewrite !create_ai_system_ok by assumption. simpl.
  split; [eauto|].
  unfold applicable_records. rewrite !flush_all_requirement_ids, Hrisk.
  apply set_eq. intros k. rewrite !elem_of_list_to_set, !list_elem_of_In.
  rewrite !in_map_iff.
  split; intros (q & Hk & Hq); exists q; (split; [exact Hk|]);
    apply filter_In in Hq as [Hq Happ]; apply filter_In; (split; [|exact Happ]).
  - eapply Permutation_in; [exact Hperm | exact Hq].
  - eapply Permutation_in; [symmetry; exact Hperm | exact Hq].
Qed.

Lemma registration_is_deterministic_witness :
  (list_to_set
     (List.map RequirementMapping.requirement_id
        (created_records sample_db
           (create_ai_system sample_create sample_db sample_oracle)))
   : gset ident)
  = list_to_set
      (List.map RequirementMapping.requirement_id
         (created_records sample_db_reversed
            (create_ai_system sample_create_2 sample_db_reversed
               sample_oracle_2))).
Proof.
  apply (registration_is_deterministic sample_create sample_create_2
           sample_db sample_db_reversed sample_oracle sample_oracle_2).
  - reflexivity.
  - apply Permutation_rev.
  - exact sample_db_decodes.
  - exact sample_oracle_fresh.
  - split; [|split].
    + simpl. tauto.
    + distinct_keys.
    + simpl. tauto.
Defined.

(** C2, as stated, fails: the registration of [sample_create] in
    [sample_db] first commits a store in which the new system is visible
    and has no tracking record for "req-13", which applies to it. *)
Lemma registration_shows_system_alone : ~ registration_is_atomic.
Proof.
  intros H.
  destruct (H sample_create sample_db sample_oracle
              (with_system (new_system sample_create sample_oracle) sample_db))
    with (q := sample_requirement "req-13" "Article 13" "Transparency"
                 ["high"; "limited"])
    as (m & Hin & Hsys & _).
  - rewrite (create_ai_system_ok _ _ _ sample_db_decodes sample_oracle_fresh).
    left. reflexivity.
  - simpl. tauto.
  - simpl. tauto.
  - reflexivity.
  - simpl in Hin.
    repeat (destruct Hin as [<-|Hin]; [discriminate Hsys|]). exact Hin.
Qed.

Lemma insert_mappings_Some_free o n pending table table' :
  insert_mappings o n pending table = Some table' ->
  List.NoDup (List.map (uuid4 o) (seq n (length pending))) /\
  forall i, (n <= i < n + length pending)%nat ->
            ~ In (uuid4 o i) (List.map RequirementMapping.id table).
Proof.
  revert n table. induction pending as [|p pending IH]; intros n table H;
    simpl in *.
  - split; [constructor | intros i Hi; lia].
  - destruct (pk_taken RequirementMapping.id (uuid4 o n) table) eqn:Hpk;
      [discriminate|].
    apply pk_taken_false in Hpk.
    destruct (IH _ _ H) as [Hnd Hfree].
    assert (Hlater : forall i, (S n <= i < S n + length pending)%nat ->
                               uuid4 o i <> uuid4 o n
                               /\ ~ In (uuid4 o i)
                                       (List.map RequirementMapping.id table)).
    { intros i Hi. specialize (Hfree i Hi).
      rewrite map_app, in_app_iff in Hfree. simpl in Hfree.
      split; [intros E; apply Hfree; right; left; now rewrite E | tauto]. }
    split.
    + constructor; [|exact Hnd].
      intros Hin. apply in_map_iff in Hin as (i & Hi & Hseq).
      apply in_seq in Hseq. destruct (Hlater i Hseq) as [Hne _].
      contradiction.
    + intros i Hi. destruct (Nat.eq_dec i n) as [->|Hne]; [exact Hpk|].
      apply Hlater. lia.
Qed.

(** C2, amended. A registration commits twice.  The first commit makes the
    system record visible alone; the second adds all tracking records that
    apply, together.  When the key drawn for the system is taken nothing is
    committed; when reading the catalog raises, or a key drawn for a
    tracking record is taken, the request fails after the first commit and
    the system stays visible without tracking records.  No commit adds only
    a part of the records. *)
Theorem registration_commits_in_two_steps system db o :
  (In (uuid4 o 0) (List.map AISystem.id (ai_systems db)) ->
   commits (create_ai_system system db o) = [] /\
   result (create_ai_system system db o) = inl IntegrityError) /\
  (~ In (uuid4 o 0) (List.map AISystem.id (ai_systems db)) ->
   (forall e,
       assign_requirements
         (RiskCategory_value (AISystemCreate.risk_category system))
         (uuid4 o 0) (compliance_requirements db) [] = inl e ->
       commits (create_ai_system system db o)
         = [with_system (new_system system o) db] /\
       result (create_ai_system system db o) = inl e) /\
   (forall pending,
       assign_requirements
         (RiskCategory_value (AISystemCreate.risk_category system))
         (uuid4 o 0) (compliance_requirements db) [] = inr pending ->
       pending
       = List.map (new_pending (uuid4 o 0))
           (List.filter
              (applies_to_risk
                 (RiskCategory_value (AISystemCreate.risk_category system)))
              (compliance_requirements db)) /\
       (record_keys_free o (length pending) (requirement_mappings db) ->
        commits (create_ai_system system db o)
          = [with_system (new_system system o) db;
             with_records
               (applicable_records o
                  (RiskCategory_value (AISystemCreate.risk_category system))
                  (uuid4 o 0) (compliance_requirements db))
               (with_system (new_system system o) db)] /\
        result (create_ai_system system db o)
          = inr (to_response (new_system system o))) /\
       (~ record_keys_free o (length pending) (requirement_mappings db) ->
        commits (create_ai_system system db o)
          = [with_system (new_system system o) db] /\
        result (create_ai_system system db o) = inl IntegrityError))).
Proof.
  split.
  - intros Htaken.
    assert (Hpk : pk_taken AISystem.id (uuid4 o 0) (ai_systems db) = true).
    { destruct (pk_taken AISystem.id (uuid4 o 0) (ai_systems db)) eqn:E;
        [reflexivity|]. apply pk_taken_false in E. contradiction. }
    unfold create_ai_system, insert_system. simpl. rewrite Hpk.
    split; reflexivity.
  - intros Hfree. apply pk_taken_false in Hfree.
    unfold create_ai_system, insert_system. simpl. rewrite Hfree. simpl.
    split.
    + intros e He. rewrite He. split; reflexivity.
    + intros pending Hp. rewrite Hp.
      pose proof (assign_requirements_inr _ _ _ _ _ Hp) as Heq.
      simpl in Heq. split; [exact Heq|]. split.
      * intros [Hnd Hkeys]. rewrite insert_mappings_fresh.
        -- subst pending. split; reflexivity.
        -- exact Hnd.
        -- intros i Hi. apply Hkeys. lia.
      * intros Hnot.
        destruct (insert_mappings o 1 pending (requirement_mappings db))
          as [table|] eqn:Hins; [|split; reflexivity].
        exfalso. apply Hnot.
        destruct (insert_mappings_Some_free _ _ _ _ _ Hins) as [Hnd Hkeys].
        split; [exact Hnd|]. intros n Hn. apply Hkeys. lia.
Qed.

Lemma registration_commits_in_two_steps_witness :
  (commits (create_ai_system sample_create sample_init sample_oracle)
   = [with_system (new_system sample_create sample_oracle) sample_init;
      sample_db_taken])
  /\ commits (create_ai_system sample_create sample_db_taken sample_oracle)
     = [].
Proof.
  destruct (registration_commits_in_two_steps sample_create sample_init
              sample_oracle) as [_ Hfree].
  destruct (registration_commits_in_two_steps sample_create sample_db_taken
              sample_oracle) as [Htaken _].
  split.
  - destruct Hfree as [_ Hok]; [simpl; tauto|].
    destruct (Hok (List.map (new_pending "uuid")
                     (List.filter (applies_to_risk "limited") sample_catalog))
                eq_refl) as (_ & Hboth & _).
    apply Hboth. split.
    + distinct_keys.
    + simpl. tauto.
  - apply Htaken. simpl. left. reflexivity.
Defined.

Example registration_with_unreadable_catalog :
  create_ai_system sample_create sample_db_unreadable sample_oracle
  = mkOutcome (inl JSONDecodeError)
      [with_system (new_system sample_create sample_oracle)
                   sample_db_unreadable].
Proof. reflexivity. Qed.

(** ** At most one record for a system and a requirement *)

Lemma NoDup_map_In_eq {A B : Type} (f : A -> B) l a b :
  List.NoDup (List.map f l) -> In a l -> In b l -> f a = f b -> a = b.
Proof.
  induction l as [|x l IH]; simpl; [tauto|].
  intros Hnd Ha Hb Hf. inversion Hnd as [|k ks Hk Hks]; subst.
  destruct Ha as [->|Ha], Hb as [->|Hb]; auto.
  - exfalso. apply Hk. rewrite Hf. now apply in_map.
  - exfalso. apply Hk. rewrite <- Hf. now apply in_map.
Qed.

Lemma NoDup_map_filter {A B : Type} (f : A -> B) (P : A -> bool) l :
  List.NoDup (List.map f l) -> List.NoDup (List.map f (List.filter P l)).
Proof.
  induction l as [|x l IH]; simpl; [auto|].
  intros Hnd. inversion Hnd as [|k ks Hk Hks]; subst.
  destruct (P x); simpl; [|auto]. constructor; [|auto].
  intros Hin. apply Hk. apply in_map_iff in Hin as (y & Hy & Hin).
  apply filter_In in Hin as [Hin _]. rewrite <- Hy. now apply in_map.
Qed.

Lemma NoDup_map_pair {A B : Type} (a : A) (l : list B) :
  List.NoDup l -> List.NoDup (List.map (fun b => (a, b)) l).
Proof.
  induction 1 as [|b l Hb _ IH]; simpl; constructor; [|exact IH].
  intros Hin. apply in_map_iff in Hin as (b' & [= ->] & Hin). contradiction.
Qed.

Lemma flush_all_pairs o n system_id (reqs : list ComplianceRequirement.t) :
  List.map pair_of (flush_all o n (List.map (new_pending system_id) reqs))
  = List.map (fun q => (system_id, ComplianceRequirement.id q)) reqs.
Proof.
  revert n. induction reqs as [|q reqs IH]; intros n; simpl; [reflexivity|].
  now rewrite IH.
Qed.

Lemma insert_mappings_keys o n pending table table' :
  insert_mappings o n pending table = Some table' ->
  List.NoDup (List.map RequirementMapping.id table) ->
  List.NoDup (List.map RequirementMapping.id table').
Proof.
  revert n table. induction pending as [|p pending IH]; intros n table H Hnd;
    simpl in *.
  - now injection H as <-.
  - destruct (pk_taken _ _ table) eqn:Hpk; [discriminate|].
    apply IH in H; [exact H|].
    rewrite map_app. simpl. apply List.NoDup_app; [exact Hnd| |].
    + repeat constructor. simpl. tauto.
    + intros k Hk [<-|[]]. apply pk_taken_false in Hpk. contradiction.
Qed.

Lemma replace_row_same_keys k row table old :
  List.NoDup (List.map RequirementMapping.id table) ->
  first_by RequirementMapping.id k table = Some old ->
  RequirementMapping.id row = RequirementMapping.id old ->
  pair_of row = pair_of old ->
  List.map RequirementMapping.id (replace_row k row table)
    = List.map RequirementMapping.id table /\
  List.map pair_of (replace_row k row table) = List.map pair_of table.
Proof.
  intros Hnd Hfind Hid Hpair.
  destruct (first_by_Some _ _ _ _ Hfind) as [Hin Hkey].
  unfold replace_row. rewrite !map_map.
  split; apply map_ext_in; intros m Hm;
    destruct (String.eqb_spec (RequirementMapping.id m) k) as [E|E];
    try reflexivity;
    assert (m = old)
      by (apply (NoDup_map_In_eq RequirementMapping.id table); congruence);
    subst m; assumption.
Qed.

Lemma replace_row_In k row table m :
  In m (replace_row k row table) -> m = row \/ In m table.
Proof.
  unfold replace_row. rewrite in_map_iff. intros (x & Hx & Hin).
  destruct (String.eqb (RequirementMapping.id x) k); subst; auto.
Qed.

Lemma consistent_create catalog system db o db' :
  List.NoDup (List.map ComplianceRequirement.id catalog) ->
  consistent catalog db ->
  In db' (commits (create_ai_system system db o)) ->
  consistent catalog db'.
Proof.
  intros Hcat (Hc & Hids & Hpairs & Hfk) Hin.
  assert (Hfirst : consistent catalog
                     (with_system (new_system system o) db)).
  { repeat split; simpl; auto.
    intros m Hm. rewrite map_app, in_app_iff. left. now apply Hfk. }
  destruct (create_ai_system_cases system db o)
    as [[_ H]|[(_ & e & _ & H)|[(_ & _ & H)|(Hpk & _ & Hins & H)]]];
    simpl in H; rewrite H in Hin; simpl in Hin.
  - contradiction.
  - destruct Hin as [<-|[]]. exact Hfirst.
  - destruct Hin as [<-|[]]. exact Hfirst.
  - destruct Hin as [<-|[<-|[]]]; [exact Hfirst|].
    apply pk_taken_false in Hpk.
    unfold consistent, with_records, with_system. simpl.
    split; [exact Hc|]. split; [|split].
    + eapply insert_mappings_keys; [exact Hins | exact Hids].
    + rewrite map_app. apply List.NoDup_app; [exact Hpairs| |].
      * unfold applicable_records. rewrite flush_all_pairs.
        rewrite <- (map_map ComplianceRequirement.id
                      (fun k => (uuid4 o 0, k))).
        apply NoDup_map_pair.
        apply NoDup_map_filter. rewrite Hc. exact Hcat.
      * intros [s q] Hold Hnew.
        unfold applicable_records in Hnew. rewrite flush_all_pairs in Hnew.
        apply in_map_iff in Hnew as (q' & [= <- _] & _).
        apply in_map_iff in Hold as (m & Hm & Hmin).
        apply Hpk. injection Hm as <- _. now apply Hfk.
    + intros m Hm. rewrite map_app, in_app_iff. simpl.
      apply in_app_iff in Hm as [Hm|Hm]; [left; now apply Hfk|].
      right. left. unfold applicable_records in Hm.
      apply flush_all_In in Hm as (q & _ & Hsys & _). now rewrite Hsys.
Qed.

Lemma consistent_update catalog mapping_id update db o db' :
  consistent catalog db ->
  In db' (commits (update_requirement_status mapping_id update db o)) ->
  consistent catalog db'.
Proof.
  intros (Hc & Hids & Hpairs & Hfk) Hin.
  unfold update_requirement_status in Hin.
  destruct (first_by RequirementMapping.id mapping_id
              (requirement_mappings db)) as [mapping|] eqn:Hfind;
    [|contradiction].
  destruct (flush_update_frame o update mapping) as (Hid & Hsys & Hreq & _).
  simpl in Hid, Hsys, Hreq.
  assert (Hdb' : db' = mkDB (ai_systems db) (compliance_requirements db)
                   (replace_row mapping_id
                      (flush_update o mapping (apply_update update mapping))
                      (requirement_mappings db))).
  { destruct (first_by ComplianceRequirement.id _ _);
      simpl in Hin; destruct Hin as [<-|[]]; reflexivity. }
  subst db'.
  destruct (replace_row_same_keys mapping_id
              (flush_update o mapping (apply_update update mapping))
              (requirement_mappings db) mapping Hids Hfind Hid)
    as [Hk Hp].
  { unfold pair_of. now rewrite Hsys, Hreq. }
  unfold consistent. simpl. rewrite Hk, Hp.
  split; [exact Hc|]. split; [exact Hids|]. split; [exact Hpairs|].
  intros m Hm. apply replace_row_In in Hm as [->|Hm]; [|now apply Hfk].
  rewrite Hsys. apply Hfk.
  now destruct (first_by_Some _ _ _ _ Hfind).
Qed.

Lemma reachable_consistent catalog db :
  List.NoDup (List.map ComplianceRequirement.id catalog) ->
  reachable catalog db -> consistent catalog db.
Proof.
  intros Hcat Hreach. induction Hreach as [|db r o db' _ IH Hin].
  - repeat split; simpl; try constructor. tauto.
  - destruct r as [system| |system_id| |system_id|system_id|mapping_id update];
      simpl in Hin.
    + eapply consistent_create; eauto.
    + contradiction.
    + unfold get_ai_system in Hin.
      destruct (first_by _ _ _); contradiction.
    + contradiction.
    + unfold get_system_requirements in Hin.
      destruct (first_by _ _ _); contradiction.
    + unfold get_system_compliance in Hin.
      destruct (first_by _ _ _); contradiction.
    + eapply consistent_update; eauto.
Qed.

Lemma NoDup_pairs_at_most_one s q table :
  List.NoDup (List.map pair_of table) ->
  (length (List.filter (links s q) table) <= 1)%nat.
Proof.
  induction table as [|m table IH]; simpl; [lia|].
  intros Hnd. inversion Hnd as [|k ks Hk Hks]; subst.
  destruct (links s q m) eqn:Hm; [|auto]. simpl.
  assert (Hnone : List.filter (links s q) table = []).
  { destruct (List.filter (links s q) table) as [|m' rest] eqn:E;
      [reflexivity|].
    exfalso. apply Hk.
    assert (Hm' : In m' (List.filter (links s q) table))
      by (rewrite E; now left).
    apply filter_In in Hm' as [Hin Hl].
    unfold links in Hm, Hl.
    apply andb_true_iff in Hm as [H1 H2], Hl as [H3 H4].
    apply String.eqb_eq in H1, H2, H3, H4.
    replace (pair_of m) with (pair_of m')
      by (unfold pair_of; congruence).
    now apply in_map. }
  rewrite Hnone. simpl. lia.
Qed.

(** C5. In every store that registrations, status updates and reads lead
    to from a freshly initialised store whose catalog has distinct keys,
    the number of tracking records that reference a given system and a
    given requirement is at most one. *)
Theorem at_most_one_record_per_pair catalog db s q :
  List.NoDup (List.map ComplianceRequirement.id catalog) ->
  reachable catalog db ->
  (length (records_for s q db) <= 1)%nat.
Proof.
  intros Hcat Hreach.
  destruct (reachable_consistent catalog db Hcat Hreach)
    as (_ & _ & Hpairs & _).
  unfold records_for. now apply NoDup_pairs_at_most_one.
Qed.

Lemma sample_catalog_keys :
  List.NoDup (List.map ComplianceRequirement.id sample_catalog).
Proof. distinct_keys. Qed.

Lemma sample_registered_reachable :
  reachable sample_catalog
    (final_state sample_init
       (create_ai_system sample_create sample_init sample_oracle)).
Proof.
  apply (reachable_commit sample_catalog sample_init
           (CreateSystem sample_create) sample_oracle).
  - apply reachable_init.
  - simpl. right. left. reflexivity.
Qed.

Lemma at_most_one_record_per_pair_witness :
  (length
     (records_for "uuid" "req-13"
        (final_state sample_init
           (create_ai_system sample_create sample_init sample_oracle)))
   <= 1)%nat.
Proof.
  apply (at_most_one_record_per_pair sample_catalog).
  - exact sample_catalog_keys.
  - exact sample_registered_reachable.
Defined.


(** * Further properties of the handlers *)

(** ** Lookups in tables *)

Lemma first_by_app {A : Type} (key : A -> ident) k rows rows' :
  first_by key k (rows ++ rows')
  = match first_by key k rows with
    | Some r => Some r
    | None => first_by key k rows'
    end.
Proof.
  unfold first_by. induction rows as [|r rows IH]; simpl; [reflexivity|].
  destruct (String.eqb (key r) k); [reflexivity | exact IH].
Qed.

Lemma first_by_present {A : Type} (key : A -> ident) k rows :
  In k (List.map key rows) ->
  exists r, first_by key k rows = Some r /\ In r rows /\ key r = k.
Proof.
  intros Hin. destruct (first_by key k rows) as [r|] eqn:E.
  - exists r. split; [reflexivity|]. now apply first_by_Some in E.
  - exfalso. apply in_map_iff in Hin as (r & Hk & Hr).
    unfold first_by in E. apply (find_none _ _ E) in Hr.
    apply String.eqb_neq in Hr. contradiction.
Qed.

Lemma mapping_entries_catalog db db' mappings :
  compliance_requirements db' = compliance_requirements db ->
  mapping_entries db' mappings = mapping_entries db mappings.
Proof.
  intros Hcat. induction mappings as [|m mappings IH]; simpl; [reflexivity|].
  rewrite Hcat, IH. reflexivity.
Qed.

Lemma mappings_of_app system_id systems catalog table table' :
  mappings_of system_id (mkDB systems catalog (table ++ table'))
  = mappings_of system_id (mkDB systems catalog table)
    ++ mappings_of system_id (mkDB systems catalog table').
Proof. unfold mappings_of. simpl. apply List.filter_app. Qed.

Lemma applicable_records_of_other o risk system_id catalog other :
  other <> system_id ->
  List.filter
    (fun m => String.eqb (RequirementMapping.ai_system_id m) other)
    (applicable_records o risk system_id catalog) = [].
Proof.
  intros Hne. unfold applicable_records.
  generalize 1%nat (List.filter (applies_to_risk risk) catalog).
  intros n reqs. revert n.
  induction reqs as [|q reqs IH]; intros n; simpl; [reflexivity|].
  destruct (String.eqb_spec system_id other) as [E|E]; [congruence|].
  apply IH.
Qed.

Lemma applicable_records_of_self o risk system_id catalog :
  List.filter
    (fun m => String.eqb (RequirementMapping.ai_system_id m) system_id)
    (applicable_records o risk system_id catalog)
  = applicable_records o risk system_id catalog.
Proof.
  unfold applicable_records.
  generalize 1%nat (List.filter (applies_to_risk risk) catalog).
  intros n reqs. revert n.
  induction reqs as [|q reqs IH]; intros n; simpl; [reflexivity|].
  rewrite String.eqb_refl, IH. reflexivity.
Qed.

(** The stores a registration commits, with the key of the system free. *)
Lemma create_ai_system_commits system db o db' :
  In db' (commits (create_ai_system system db o)) ->
  pk_taken AISystem.id (uuid4 o 0) (ai_systems db) = false /\
  (db' = with_system (new_system system o) db
   \/ db' = with_records
             (applicable_records o
                (RiskCategory_value (AISystemCreate.risk_category system))
                (uuid4 o 0) (compliance_requirements db))
             (with_system (new_system system o) db)).
Proof.
  intros Hin.
  destruct (create_ai_system_cases system db o)
    as [[_ H]|[(Hpk & e & _ & H)|[(Hpk & _ & H)|(Hpk & _ & _ & H)]]];
    simpl in H; rewrite H in Hin; simpl in Hin.
  - contradiction.
  - destruct Hin as [<-|[]]. auto.
  - destruct Hin as [<-|[]]. auto.
  - destruct Hin as [<-|[<-|[]]]; auto.
Qed.

(** A registration that returns a response went through both commits. *)
Lemma create_ai_system_inr system db o response :
  result (create_ai_system system db o) = inr response ->
  pk_taken AISystem.id (uuid4 o 0) (ai_systems db) = false /\
  response = to_response (new_system system o) /\
  final_state db (create_ai_system system db o)
  = with_records
      (applicable_records o
         (RiskCategory_value (AISystemCreate.risk_category system))
         (uuid4 o 0) (compliance_requirements db))
      (with_system (new_system system o) db) /\
  exists pending,
    assign_requirements
      (RiskCategory_value (AISystemCreate.risk_category system))
      (uuid4 o 0) (compliance_requirements db) [] = inr pending.
Proof.
  intros Hres.
  destruct (create_ai_system_cases system db o)
    as [[_ H]|[(Hpk & e & _ & H)|[(Hpk & _ & H)|(Hpk & Ha & _ & H)]]];
    simpl in H; rewrite H in Hres |- *; simpl in Hres; try discriminate.
  injection Hres as <-. unfold final_state. simpl. eauto.
Qed.

(** ** Registration and the reads of systems *)

(** X1. The response of a registration is what [get_ai_system] returns
    for its identifier afterwards, and the last element of what
    [list_ai_systems] returns, the elements before it being the systems
    listed before the registration. *)
Theorem registered_system_is_found system db o response :
  result (create_ai_system system db o) = inr response ->
  result (get_ai_system (AISystemResponse.id response)
            (final_state db (create_ai_system system db o)))
  = inr response /\
  exists listed,
    result (list_ai_systems db) = inr listed /\
    result (list_ai_systems (final_state db (create_ai_system system db o)))
    = inr (listed ++ [response]).
Proof.
  intros Hres.
  destruct (create_ai_system_inr _ _ _ _ Hres) as (Hpk & -> & -> & _).
  apply pk_taken_false in Hpk. simpl. split.
  - unfold get_ai_system. simpl. rewrite first_by_app.
    rewrite (first_by_absent _ _ _ Hpk). unfold first_by. simpl.
    rewrite String.eqb_refl. reflexivity.
  - eexists. split; [reflexivity|]. simpl. now rewrite map_app.
Qed.

Lemma registered_system_is_found_witness :
  exists response,
    result (create_ai_system sample_create sample_db sample_oracle)
      = inr response /\
    result (get_ai_system "uuid"
              (final_state sample_db
                 (create_ai_system sample_create sample_db sample_oracle)))
    = inr response.
Proof.
  exists (to_response (new_system sample_create sample_oracle)).
  split; [reflexivity|].
  exact (proj1 (registered_system_is_found sample_create sample_db
                  sample_oracle _ eq_refl)).
Defined.

(** X2. [get_ai_system] and [list_ai_systems] agree: a system that the
    lookup returns is listed and has the identifier asked for, and the
    lookup succeeds for the identifier of every listed system. *)
Theorem lookup_agrees_with_listing db :
  (forall system_id response,
      result (get_ai_system system_id db) = inr response ->
      AISystemResponse.id response = system_id /\
      exists listed,
        result (list_ai_systems db) = inr listed /\ In response listed) /\
  (forall listed response,
      result (list_ai_systems db) = inr listed ->
      In response listed ->
      exists found,
        result (get_ai_system (AISystemResponse.id response) db) = inr found /\
        AISystemResponse.id found = AISystemResponse.id response).
Proof.
  split.
  - intros system_id response. unfold get_ai_system.
    destruct (first_by AISystem.id system_id (ai_systems db)) as [s|] eqn:E;
      simpl; [|discriminate].
    intros [= <-]. apply first_by_Some in E as [Hin Hid].
    split; [exact Hid|]. eexists. split; [reflexivity|].
    now apply in_map.
  - intros listed response [= <-] Hin.
    apply in_map_iff in Hin as (s & <- & Hs).
    destruct (first_by_present AISystem.id (AISystem.id s) (ai_systems db))
      as (s' & Hfind & _ & Hid); [now apply in_map|].
    unfold get_ai_system. simpl. rewrite Hfind. eexists.
    split; [reflexivity | exact Hid].
Qed.

Lemma lookup_agrees_with_listing_witness :
  exists found,
    result (get_ai_system "sys-2" sample_db) = inr found /\
    AISystemResponse.id found = "sys-2".
Proof.
  destruct (lookup_agrees_with_listing sample_db) as [_ H].
  apply (H (List.map to_response (ai_systems sample_db))
           (to_response (sample_system "sys-2" MINIMAL))).
  - reflexivity.
  - simpl. tauto.
Defined.

(** X3. A registration changes nothing for the systems that exist: in
    every store it commits, the lookup, the compliance summary and the
    listing of tracking records of an existing system are what they were. *)
Theorem registration_keeps_existing_systems system db o db' system_id :
  In db' (commits (create_ai_system system db o)) ->
  In system_id (List.map AISystem.id (ai_systems db)) ->
  get_ai_system system_id db' = get_ai_system system_id db /\
  get_system_compliance system_id db' = get_system_compliance system_id db /\
  get_system_requirements system_id db'
  = get_system_requirements system_id db.
Proof.
  intros Hin Hsys.
  destruct (create_ai_system_commits _ _ _ _ Hin) as [Hpk Hdb'].
  apply pk_taken_false in Hpk.
  assert (Hne : system_id <> uuid4 o 0) by congruence.
  destruct (first_by_present _ _ _ Hsys) as (s & Hfind & _).
  assert (Hs : first_by AISystem.id system_id (ai_systems db') = Some s).
  { destruct Hdb' as [-> | ->]; simpl; now rewrite first_by_app, Hfind. }
  assert (Hm : mappings_of system_id db' = mappings_of system_id db).
  { destruct Hdb' as [-> | ->]; [reflexivity|].
    unfold with_records, with_system. simpl. rewrite mappings_of_app.
    unfold mappings_of at 2. simpl.
    rewrite applicable_records_of_other by assumption.
    now rewrite app_nil_r. }
  assert (Hc : compliance_requirements db' = compliance_requirements db)
    by (destruct Hdb' as [-> | ->]; reflexivity).
  unfold get_ai_system, get_system_compliance, get_system_requirements.
  rewrite Hs, Hfind, Hm, (mapping_entries_catalog db db' _ Hc). auto.
Qed.

Lemma registration_keeps_existing_systems_witness :
  get_system_compliance "sys-1"
    (final_state sample_db
       (create_ai_system sample_create sample_db sample_oracle))
  = get_system_compliance "sys-1" sample_db.
Proof.
  apply (registration_keeps_existing_systems sample_create sample_db
           sample_oracle).
  - simpl. right. left. reflexivity.
  - simpl. tauto.
Defined.

(** ** The summary and the tracking records of a new system *)

Lemma flush_all_statuses o n system_id (reqs : list ComplianceRequirement.t) :
  List.map RequirementMapping.status
    (flush_all o n (List.map (new_pending system_id) reqs))
  = repeat NOT_STARTED (length reqs).
Proof.
  revert n. induction reqs as [|q reqs IH]; intros n; simpl; [reflexivity|].
  now rewrite IH.
Qed.

Lemma count_status_not_started st n :
  Z.of_nat (length (List.filter (fun s => bool_decide (s = st))
                      (repeat NOT_STARTED n)))
  = (indicator NOT_STARTED st * Z.of_nat n)%Z.
Proof.
  unfold indicator. induction n as [|n IH]; simpl.
  - destruct (bool_decide (NOT_STARTED = st)); reflexivity.
  - destruct (bool_decide (NOT_STARTED = st)) eqn:E; simpl in *; lia.
Qed.

Lemma percentage_of_none total :
  (0 < total)%Z -> percentage_of 0 total = S754_zero false.
Proof. destruct total; [lia | reflexivity | lia]. Qed.

Lemma SFdiv_self p :
  SFdiv prec emax (S754_finite false p 0) (S754_finite false p 0)
  = float_of_int 1.
Proof.
  unfold SFdiv, SFdiv_core_binary.
  replace (Zdigits2 (Zpos p) + 0 - (Zdigits2 (Zpos p) + 0))%Z with 0%Z by lia.
  change (Z.min (fexp prec emax 0) (0 - 0)) with (-53)%Z.
  change (0 - 0 - -53)%Z with 53%Z. cbv iota beta.
  rewrite Z.shiftl_mul_pow2 by lia.
  destruct (Z.div_eucl (Z.pos p * 2 ^ 53) (Z.pos p)) as [q r] eqn:E.
  assert (Hq : q = (2 ^ 53)%Z).
  { change q with (fst (q, r)). rewrite <- E.
    change (fst (Z.div_eucl (Z.pos p * 2 ^ 53) (Z.pos p)))
      with (Z.pos p * 2 ^ 53 / Z.pos p)%Z.
    rewrite Z.mul_comm. apply Z.div_mul. discriminate. }
  assert (Hr : r = 0%Z).
  { change r with (snd (q, r)). rewrite <- E.
    change (snd (Z.div_eucl (Z.pos p * 2 ^ 53) (Z.pos p)))
      with ((Z.pos p * 2 ^ 53) mod Z.pos p)%Z.
    rewrite Z.mul_comm. apply Z.mod_mul. discriminate. }
  subst q r. unfold new_location.
  destruct (Z.even (Z.pos p)); vm_compute; reflexivity.
Qed.

Lemma percentage_of_all total :
  (0 < total)%Z -> percentage_of total total = float_of_int 100.
Proof.
  destruct total as [|p|p]; [lia | intros _ | lia].
  unfold percentage_of. simpl exact_int. rewrite SFdiv_self.
  vm_compute. reflexivity.
Qed.

(** X4. A system with tracking records none of which is completed has the
    percentage 0.0, a float, where a system without tracking records has the
    integer 0; a system all of whose tracking records are completed has
    the percentage 100.0, whatever their number. *)
Theorem percentage_at_the_ends system_id db system :
  first_by AISystem.id system_id (ai_systems db) = Some system ->
  mappings_of system_id db <> [] ->
  exists summary,
    result (get_system_compliance system_id db) = inr summary /\
    (count_status COMPLETED (mappings_of system_id db) = 0%Z ->
     ComplianceSummary.compliance_percentage summary
     = PyFloat (S754_zero false)) /\
    (count_status COMPLETED (mappings_of system_id db)
     = Z.of_nat (length (mappings_of system_id db)) ->
     ComplianceSummary.compliance_percentage summary
     = PyFloat (float_of_int 100)).
Proof.
  intros Hsys Hne.
  destruct (summarize_nonempty system_id system _ Hne) as (d & _ & Hsum).
  assert (Hpos : (0 < Z.of_nat (length (mappings_of system_id db)))%Z).
  { destruct (mappings_of system_id db); [contradiction | simpl; lia]. }
  eexists. unfold get_system_compliance. rewrite Hsys. simpl.
  split; [exact Hsum|]. simpl. split.
  - intros ->. now rewrite percentage_of_none.
  - intros ->. now rewrite percentage_of_all.
Qed.

Lemma percentage_at_the_ends_witness :
  exists summary,
    result (get_system_compliance "uuid"
              (final_state sample_db
                 (create_ai_system sample_create sample_db sample_oracle)))
    = inr summary /\
    ComplianceSummary.compliance_percentage summary
    = PyFloat (S754_zero false).
Proof.
  destruct (percentage_at_the_ends "uuid"
              (final_state sample_db
                 (create_ai_system sample_create sample_db sample_oracle))
              (new_system sample_create sample_oracle))
    as (summary & Hres & Hzero & _).
  - reflexivity.
  - discriminate.
  - exists summary. split; [exact Hres|]. apply Hzero. reflexivity.
Defined.

Lemma mapping_entries_flush db o n system_id
    (reqs : list ComplianceRequirement.t) :
  (forall q, In q reqs -> In q (compliance_requirements db)) ->
  let entries :=
    mapping_entries db
      (flush_all o n (List.map (new_pending system_id) reqs)) in
  List.map MappingEntry.requirement_id entries
    = List.map ComplianceRequirement.id reqs /\
  List.map MappingEntry.mapping_id entries
    = List.map (uuid4 o) (seq n (length reqs)) /\
  List.Forall
    (fun e => MappingEntry.status e = "not_started"
              /\ MappingEntry.notes e = None)
    entries.
Proof.
  revert n. induction reqs as [|q reqs IH]; intros n Hsub; simpl.
  - repeat split; constructor.
  - destruct (first_by_present ComplianceRequirement.id
                (ComplianceRequirement.id q) (compliance_requirements db))
      as (q' & Hfind & _ & Hid).
    { apply in_map. apply Hsub. now left. }
    rewrite Hfind. simpl.
    destruct (IH (S n)) as (Hr & Hm & Hs).
    { intros q0 Hq0. apply Hsub. now right. }
    rewrite Hr, Hm, Hid. repeat split. constructor; [auto | exact Hs].
Qed.

(** X5. Right after its registration, a system that no earlier tracking
    record references has one tracking record for each applicable
    requirement and no other.  The summary reports their number as total
    and as not started, zero for the other statuses and, when there is a
    record, the percentage 0.0.  The listing has one entry for each of
    them, in the order of the catalog, with status not_started and no
    notes. *)
Theorem new_system_starts_at_zero system db o response :
  result (create_ai_system system db o) = inr response ->
  ~ In (AISystemResponse.id response)
       (List.map RequirementMapping.ai_system_id (requirement_mappings db)) ->
  exists summary entries,
    result (get_system_compliance (AISystemResponse.id response)
              (final_state db (create_ai_system system db o)))
      = inr summary /\
    result (get_system_requirements (AISystemResponse.id response)
              (final_state db (create_ai_system system db o)))
      = inr entries /\
    ComplianceSummary.total_requirements summary
      = Z.of_nat (length entries) /\
    List.map MappingEntry.requirement_id entries
      = List.map ComplianceRequirement.id
          (List.filter
             (applies_to_risk
                (RiskCategory_value (AISystemCreate.risk_category system)))
             (compliance_requirements db)) /\
    List.Forall
      (fun e => MappingEntry.status e = "not_started"
                /\ MappingEntry.notes e = None)
      entries /\
    (entries <> [] ->
     ComplianceSummary.requirements_not_started summary
       = Some (Z.of_nat (length entries)) /\
     ComplianceSummary.requirements_in_progress summary = Some 0%Z /\
     ComplianceSummary.requirements_completed summary = Some 0%Z /\
     ComplianceSummary.requirements_non_compliant summary = Some 0%Z /\
     ComplianceSummary.compliance_percentage summary
       = PyFloat (S754_zero false)).
Proof.
  intros Hres Hnone.
  destruct (create_ai_system_inr _ _ _ _ Hres) as (Hpk & -> & -> & _).
  apply pk_taken_false in Hpk. simpl in Hnone |- *.
  set (risk := RiskCategory_value (AISystemCreate.risk_category system)).
  set (reqs := List.filter (applies_to_risk risk)
                 (compliance_requirements db)).
  set (db2 := with_records _ _).
  assert (Hsys : first_by AISystem.id (uuid4 o 0) (ai_systems db2)
                 = Some (new_system system o)).
  { simpl. rewrite first_by_app, (first_by_absent _ _ _ Hpk).
    unfold first_by. simpl. now rewrite String.eqb_refl. }
  assert (Hms : mappings_of (uuid4 o 0) db2
                = flush_all o 1 (List.map (new_pending (uuid4 o 0)) reqs)).
  { unfold db2, with_records, with_system. simpl. rewrite mappings_of_app.
    unfold mappings_of. simpl.
    fold (applicable_records o risk (uuid4 o 0) (compliance_requirements db)).
    rewrite applicable_records_of_self.
    replace (List.filter _ (requirement_mappings db)) with
      (@nil RequirementMapping.t); [reflexivity|].
    symmetry. induction (requirement_mappings db) as [|m ms IH];
      simpl in *; [reflexivity|].
    destruct (String.eqb_spec (RequirementMapping.ai_system_id m) (uuid4 o 0))
      as [E|E]; [tauto|]. apply IH. tauto. }
  destruct (mapping_entries_flush db2 o 1 (uuid4 o 0) reqs)
    as (Hreq & Hmid & Hst).
  { intros q Hq. apply filter_In in Hq as [Hq _]. exact Hq. }
  assert (Hlen : length (mapping_entries db2
                   (flush_all o 1 (List.map (new_pending (uuid4 o 0)) reqs)))
                 = length reqs).
  { rewrite <- (length_map MappingEntry.requirement_id), Hreq.
    apply length_map. }
  assert (Hcount : forall st,
    count_status st (flush_all o 1 (List.map (new_pending (uuid4 o 0)) reqs))
    = (indicator NOT_STARTED st * Z.of_nat (length reqs))%Z).
  { intros st. rewrite count_status_map, flush_all_statuses.
    apply count_status_not_started. }
  unfold get_system_compliance, get_system_requirements.
  rewrite Hsys, Hms. simpl.
  destruct reqs as [|q reqs'] eqn:Ereqs.
  - eexists. eexists. split; [apply summarize_empty|].
    split; [reflexivity|]. simpl.
    do 3 (split; [constructor|]). intros Hempty. now contradiction Hempty.
  - destruct (summarize_nonempty (uuid4 o 0) (new_system system o)
                (flush_all o 1
                   (List.map (new_pending (uuid4 o 0)) (q :: reqs'))))
      as (d & _ & Hsum); [discriminate|].
    eexists. eexists. split; [exact Hsum|]. split; [reflexivity|].
    simpl ComplianceSummary.total_requirements.
    simpl ComplianceSummary.requirements_not_started.
    simpl ComplianceSummary.requirements_in_progress.
    simpl ComplianceSummary.requirements_completed.
    simpl ComplianceSummary.requirements_non_compliant.
    simpl ComplianceSummary.compliance_percentage.
    rewrite !Hcount, Hlen.
    assert (Hflush : length (flush_all o 1
                       (List.map (new_pending (uuid4 o 0)) (q :: reqs')))
                     = length (q :: reqs')).
    { rewrite <- (length_map RequirementMapping.status), flush_all_statuses.
      apply repeat_length. }
    simpl in Hflush. rewrite Hflush.
    split; [reflexivity|]. split; [exact Hreq|]. split; [exact Hst|].
    intros _. unfold indicator. simpl bool_decide. cbv iota.
    rewrite Z.mul_1_l, !Z.mul_0_l.
    repeat split.
Qed.

Lemma new_system_starts_at_zero_witness :
  exists summary,
    result (get_system_compliance "uuid"
              (final_state sample_db
                 (create_ai_system sample_create sample_db sample_oracle)))
      = inr summary /\
    ComplianceSummary.total_requirements summary = 2%Z.
Proof.
  destruct (new_system_starts_at_zero sample_create sample_db sample_oracle
              (to_response (new_system sample_create sample_oracle)))
    as (summary & entries & Hres & Hent & Htotal & _).
  - reflexivity.
  - simpl. intuition discriminate.
  - exists summary. split; [exact Hres|]. rewrite Htotal.
    vm_compute in Hent. injection Hent as <-. reflexivity.
Defined.

(** ** Catalogs that cannot be read *)

Lemma assign_requirements_unreadable risk system_id catalog acc q :
  In q catalog ->
  unreadable q ->
  exists e,
    assign_requirements risk system_id catalog acc = inl e /\
    (e = JSONDecodeError \/ e = TypeError).
Proof.
  revert acc. induction catalog as [|h catalog IH]; intros acc Hin Hbad;
    [contradiction|].
  simpl. unfold unreadable in Hbad.
  destruct (ComplianceRequirement.applies_to h) as [v|] eqn:Eh; simpl;
    [|eauto].
  destruct v; simpl; eauto;
    (destruct Hin as [->|Hin]; [rewrite Eh in Hbad; contradiction|]);
    match goal with |- context [if ?b then _ else _] => destruct b end;
    now apply IH.
Qed.

(** X6. One row of the catalog whose [applies_to] does not decode, or
    decodes to a number, a boolean or null, makes every registration fail
    with [JSONDecodeError] or [TypeError], whatever the category of the
    system and whatever the other rows; the system is committed all the
    same and stays in the store without tracking records. *)
Theorem unreadable_row_blocks_registration system db o q :
  In q (compliance_requirements db) ->
  unreadable q ->
  ~ In (uuid4 o 0) (List.map AISystem.id (ai_systems db)) ->
  commits (create_ai_system system db o)
    = [with_system (new_system system o) db] /\
  exists e,
    result (create_ai_system system db o) = inl e /\
    (e = JSONDecodeError \/ e = TypeError).
Proof.
  intros Hin Hbad Hfree. apply pk_taken_false in Hfree.
  destruct (assign_requirements_unreadable
              (RiskCategory_value (AISystemCreate.risk_category system))
              (uuid4 o 0) _ [] q Hin Hbad) as (e & He & Hkind).
  unfold create_ai_system, insert_system. simpl. rewrite Hfree. simpl.
  rewrite He. simpl. split; [reflexivity|]. exists e. auto.
Qed.

Lemma unreadable_row_blocks_registration_witness :
  commits (create_ai_system sample_create sample_db_unreadable sample_oracle)
  = [with_system (new_system sample_create sample_oracle)
       sample_db_unreadable].
Proof.
  apply (unreadable_row_blocks_registration sample_create
           sample_db_unreadable sample_oracle
           {| ComplianceRequirement.id := "req-x";
              ComplianceRequirement.article := "Article 99";
              ComplianceRequirement.title := "Draft";
              ComplianceRequirement.description := "Draft";
              ComplianceRequirement.applies_to := None |}).
  - simpl. tauto.
  - exact I.
  - simpl. tauto.
Defined.

Lemma requirement_entries_spec catalog :
  (List.Forall (fun q => ComplianceRequirement.applies_to q <> None) catalog /\
   exists entries,
     requirement_entries catalog = inr entries /\
     List.map
       (fun e => (RequirementEntry.id e, RequirementEntry.article e,
                  RequirementEntry.title e, RequirementEntry.description e,
                  Some (RequirementEntry.applies_to e)))
       entries
     = List.map
         (fun q => (ComplianceRequirement.id q,
                    ComplianceRequirement.article q,
                    ComplianceRequirement.title q,
                    ComplianceRequirement.description q,
                    ComplianceRequirement.applies_to q))
         catalog)
  \/ (List.Exists (fun q => ComplianceRequirement.applies_to q = None) catalog
      /\ requirement_entries catalog = inl JSONDecodeError).
Proof.
  induction catalog as [|q catalog IH]; simpl.
  - left. split; [constructor|]. exists []. auto.
  - destruct (ComplianceRequirement.applies_to q) as [v|] eqn:Eq; simpl.
    + destruct IH as [(Hall & entries & -> & Hmap)|(Hex & ->)]; simpl.
      * left. split; [constructor; [congruence | exact Hall]|].
        eexists. split; [reflexivity|]. simpl. rewrite Hmap. reflexivity.
      * right. split; [now apply Exists_cons_tl | reflexivity].
    + right. split; [now apply Exists_cons_hd | reflexivity].
Qed.

(** X7. [list_requirements] commits nothing.  When the [applies_to] of
    every row decodes it returns one entry for each row, in order, with
    the key, article, title and description of the row and the decoded
    document; one row that [json.loads] rejects makes the whole listing
    fail, with [JSONDecodeError] or [TypeError], and nothing is returned
    for the other rows. *)
Theorem listing_decodes_every_row db :
  commits (list_requirements db) = [] /\
  ((List.Forall (fun q => ComplianceRequirement.applies_to q <> None)
      (compliance_requirements db) /\
    exists entries,
      result (list_requirements db) = inr entries /\
      List.map
        (fun e => (RequirementEntry.id e, RequirementEntry.article e,
                   RequirementEntry.title e, RequirementEntry.description e,
                   Some (RequirementEntry.applies_to e)))
        entries
      = List.map
          (fun q => (ComplianceRequirement.id q,
                     ComplianceRequirement.article q,
                     ComplianceRequirement.title q,
                     ComplianceRequirement.description q,
                     ComplianceRequirement.applies_to q))
          (compliance_requirements db))
   \/ (List.Exists (fun q => ComplianceRequirement.applies_to q = None)
         (compliance_requirements db)
       /\ exists e,
           result (list_requirements db) = inl e /\
           (e = JSONDecodeError \/ e = TypeError))).
Proof.
  split; [reflexivity|].
  destruct (requirement_entries_spec (compliance_requirements db))
    as [Hall|[Hex Hfail]]; [left; exact Hall|].
  right. split; [exact Hex|]. exists JSONDecodeError. auto.
Qed.

Lemma assign_requirements_inr_decodes risk system_id catalog acc pending :
  assign_requirements risk system_id catalog acc = inr pending ->
  List.Forall (fun q => ComplianceRequirement.applies_to q <> None) catalog.
Proof.
  revert acc. induction catalog as [|q catalog IH]; intros acc H;
    [constructor|].
  simpl in H.
  destruct (ComplianceRequirement.applies_to q) as [v|] eqn:Eq; simpl in H;
    [|discriminate].
  constructor; [congruence|].
  destruct (py_in risk v) as [e|[|]]; simpl in H; [discriminate| |];
    eapply IH; exact H.
Qed.

(** X8. A catalog that a registration could read can be listed: after a
    registration that returned a response, [list_requirements] succeeds,
    before and after it, with as many entries as the catalog has rows. *)
Theorem registered_catalog_can_be_listed system db o response :
  result (create_ai_system system db o) = inr response ->
  exists entries,
    result (list_requirements db) = inr entries /\
    result (list_requirements
              (final_state db (create_ai_system system db o)))
      = inr entries /\
    length entries = length (compliance_requirements db).
Proof.
  intros Hres.
  destruct (create_ai_system_inr _ _ _ _ Hres) as (_ & _ & -> & p & Hp).
  apply assign_requirements_inr_decodes in Hp.
  destruct (requirement_entries_spec (compliance_requirements db))
    as [(_ & entries & Hrun & Hmap)|(Hex & _)].
  - exists entries. unfold list_requirements. simpl.
    split; [exact Hrun|]. split; [exact Hrun|].
    apply (f_equal (@length _)) in Hmap. now rewrite !length_map in Hmap.
  - exfalso. apply List.Exists_exists in Hex as (q & Hq & Hnone).
    exact (proj1 (List.Forall_forall _ _) Hp q Hq Hnone).
Qed.

Lemma registered_catalog_can_be_listed_witness :
  exists entries,
    result (list_requirements sample_db) = inr entries /\
    length entries = 5%nat.
Proof.
  destruct (registered_catalog_can_be_listed sample_create sample_db
              sample_oracle
              (to_response (new_system sample_create sample_oracle)))
    as (entries & Hres & _ & Hlen).
  - reflexivity.
  - exists entries. split; [exact Hres | exact Hlen].
Defined.

(** ** Status updates and the rest of the store *)

Lemma replace_row_ids k row table :
  RequirementMapping.id row = k ->
  List.map RequirementMapping.id (replace_row k row table)
  = List.map RequirementMapping.id table.
Proof.
  intros Hid. unfold replace_row. rewrite map_map. apply map_ext.
  intros m. destruct (String.eqb_spec (RequirementMapping.id m) k);
    congruence.
Qed.

Lemma first_by_replace_row_other k k' row table :
  k' <> k ->
  RequirementMapping.id row = k ->
  first_by RequirementMapping.id k' (replace_row k row table)
  = first_by RequirementMapping.id k' table.
Proof.
  intros Hne Hid. unfold first_by, replace_row.
  induction table as [|m table IH]; simpl; [reflexivity|].
  destruct (String.eqb_spec (RequirementMapping.id m) k) as [E|E].
  - rewrite Hid, E. apply String.eqb_neq in Hne.
    rewrite String.eqb_sym, Hne. exact IH.
  - rewrite IH. reflexivity.
Qed.

Lemma replace_row_twice k row table :
  RequirementMapping.id row = k ->
  replace_row k row (replace_row k row table) = replace_row k row table.
Proof.
  intros Hid. unfold replace_row. rewrite map_map. apply map_ext.
  intros m. destruct (String.eqb (RequirementMapping.id m) k) eqn:E.
  - rewrite Hid, String.eqb_refl. reflexivity.
  - rewrite E. reflexivity.
Qed.

Lemma replace_row_absent k row table :
  ~ In k (List.map RequirementMapping.id table) ->
  replace_row k row table = table.
Proof.
  unfold replace_row. induction table as [|m table IH]; simpl;
    [reflexivity|].
  intros Hnot.
  destruct (String.eqb_spec (RequirementMapping.id m) k) as [E|E]; [tauto|].
  rewrite IH by tauto. reflexivity.
Qed.

Lemma replace_row_split k row table old :
  List.NoDup (List.map RequirementMapping.id table) ->
  first_by RequirementMapping.id k table = Some old ->
  exists before after,
    table = before ++ old :: after /\
    replace_row k row table = before ++ row :: after.
Proof.
  intros Hnd Hfind. destruct (first_by_Some _ _ _ _ Hfind) as [Hin Hid].
  apply in_split in Hin as (before & after & ->).
  exists before, after. split; [reflexivity|].
  rewrite map_app in Hnd. simpl in Hnd.
  pose proof (NoDup_remove_2 _ _ _ Hnd) as Hout.
  rewrite in_app_iff in Hout. rewrite Hid in Hout.
  unfold replace_row in *. rewrite map_app. simpl.
  rewrite Hid, String.eqb_refl.
  fold (replace_row k row before). fold (replace_row k row after).
  rewrite !replace_row_absent by tauto. reflexivity.
Qed.

(** The store an update commits. *)
Lemma update_commits mapping_id update db o db' :
  In db' (commits (update_requirement_status mapping_id update db o)) ->
  exists mapping,
    first_by RequirementMapping.id mapping_id (requirement_mappings db)
      = Some mapping /\
    db' = mkDB (ai_systems db) (compliance_requirements db)
            (replace_row mapping_id
               (flush_update o mapping (apply_update update mapping))
               (requirement_mappings db)).
Proof.
  unfold update_requirement_status.
  destruct (first_by RequirementMapping.id mapping_id
              (requirement_mappings db)) as [mapping|]; [|contradiction].
  intros Hin. exists mapping. split; [reflexivity|].
  destruct (first_by ComplianceRequirement.id _ _); simpl in Hin;
    destruct Hin as [<-|[]]; reflexivity.
Qed.

Lemma update_final_state mapping_id update db o mapping :
  first_by RequirementMapping.id mapping_id (requirement_mappings db)
    = Some mapping ->
  final_state db (update_requirement_status mapping_id update db o)
  = mkDB (ai_systems db) (compliance_requirements db)
      (replace_row mapping_id
         (flush_update o mapping (apply_update update mapping))
         (requirement_mappings db)).
Proof.
  intros Hfind. unfold final_state, update_requirement_status.
  rewrite Hfind. destruct (first_by ComplianceRequirement.id _ _);
    reflexivity.
Qed.

(** X9. A status update writes one tracking record: in the store it
    commits the systems and the catalog are what they were, the tracking
    records have the same keys in the same order, and every record with
    another key is unchanged. *)
Theorem update_touches_one_record mapping_id update db o db' :
  In db' (commits (update_requirement_status mapping_id update db o)) ->
  ai_systems db' = ai_systems db /\
  compliance_requirements db' = compliance_requirements db /\
  List.map RequirementMapping.id (requirement_mappings db')
    = List.map RequirementMapping.id (requirement_mappings db) /\
  forall k,
    k <> mapping_id ->
    first_by RequirementMapping.id k (requirement_mappings db')
    = first_by RequirementMapping.id k (requirement_mappings db).
Proof.
  intros Hin. destruct (update_commits _ _ _ _ _ Hin) as (m & Hfind & ->).
  destruct (first_by_Some _ _ _ _ Hfind) as [_ Hkey].
  destruct (flush_update_frame o update m) as (Hid & _).
  simpl in Hid. rewrite Hkey in Hid. simpl.
  split; [reflexivity|]. split; [reflexivity|].
  split; [now apply replace_row_ids|].
  intros k Hk. now apply first_by_replace_row_other.
Qed.

Lemma update_touches_one_record_witness :
  first_by RequirementMapping.id "map-1"
    (requirement_mappings
       (final_state sample_db
          (update_requirement_status "map-4" sample_update sample_db
             sample_oracle)))
  = first_by RequirementMapping.id "map-1" (requirement_mappings sample_db).
Proof.
  apply (update_touches_one_record "map-4" sample_update sample_db
           sample_oracle).
  - simpl. left. reflexivity.
  - discriminate.
Defined.

(** X10. The update is committed before the requirement of the record is
    looked up: for a tracking record whose requirement is not in the
    catalog the request fails with [AttributeError], and the store has the
    new status all the same. *)
Theorem update_commits_before_it_fails mapping_id update db o mapping :
  first_by RequirementMapping.id mapping_id (requirement_mappings db)
    = Some mapping ->
  ~ In (RequirementMapping.requirement_id mapping)
       (List.map ComplianceRequirement.id (compliance_requirements db)) ->
  result (update_requirement_status mapping_id update db o)
    = inl AttributeError /\
  commits (update_requirement_status mapping_id update db o)
    = [final_state db (update_requirement_status mapping_id update db o)] /\
  exists mapping',
    first_by RequirementMapping.id mapping_id
      (requirement_mappings
         (final_state db (update_requirement_status mapping_id update db o)))
      = Some mapping' /\
    RequirementMapping.status mapping' = RequirementStatusUpdate.status update.
Proof.
  intros Hfind Hgone.
  destruct (update_existing mapping_id update db o mapping Hfind)
    as [Hrow _].
  destruct (flush_update_frame o update mapping) as (_ & _ & Hreq & _).
  destruct (flush_update_values o update mapping) as (Hst & _).
  simpl in Hreq, Hst.
  apply first_by_absent in Hgone.
  split; [|split].
  - unfold update_requirement_status. rewrite Hfind. simpl.
    rewrite Hreq, Hgone. reflexivity.
  - unfold final_state, update_requirement_status. rewrite Hfind. simpl.
    rewrite Hreq, Hgone. reflexivity.
  - eexists. split; [exact Hrow | exact Hst].
Qed.

Lemma update_commits_before_it_fails_witness :
  result (update_requirement_status "map-7" sample_update sample_db_orphan
            sample_oracle) = inl AttributeError /\
  RequirementMapping.status <$>
    first_by RequirementMapping.id "map-7"
      (requirement_mappings
         (final_state sample_db_orphan
            (update_requirement_status "map-7" sample_update
               sample_db_orphan sample_oracle)))
  = Some IN_PROGRESS.
Proof.
  destruct (update_commits_before_it_fails "map-7" sample_update
              sample_db_orphan sample_oracle
              (sample_mapping "map-7" "sys-1" "req-gone" NOT_STARTED))
    as (Hres & _ & mapping' & Hrow & Hst).
  - reflexivity.
  - simpl. intuition discriminate.
  - split; [exact Hres|]. rewrite Hrow. simpl. now rewrite Hst.
Defined.

Lemma net_change_settled o update mapping :
  let mapping' := flush_update o mapping (apply_update update mapping) in
  net_change mapping' (apply_update update mapping') = false.
Proof.
  intros mapping'. unfold net_change. apply negb_false_iff.
  apply bool_decide_eq_true.
  destruct (flush_update_values o update mapping) as (Hst & Hn & Hu).
  fold mapping' in Hst, Hn, Hu. simpl in Hn, Hu |- *.
  rewrite Hst, Hn, Hu.
  destruct (RequirementStatusUpdate.notes update),
    (RequirementStatusUpdate.updated_by update); auto.
Qed.

(** X11. Sending the same update a second time changes nothing: whatever
    the clock reads at the second request, the store after it, the
    last-modified time of the record included, is the store after the
    first. *)
Theorem repeated_update_changes_nothing mapping_id update db o1 o2 :
  final_state
    (final_state db (update_requirement_status mapping_id update db o1))
    (update_requirement_status mapping_id update
       (final_state db (update_requirement_status mapping_id update db o1))
       o2)
  = final_state db (update_requirement_status mapping_id update db o1).
Proof.
  destruct (first_by RequirementMapping.id mapping_id
              (requirement_mappings db)) as [mapping|] eqn:Hfind.
  - rewrite (update_final_state _ _ _ o1 _ Hfind).
    set (mapping' := flush_update o1 mapping (apply_update update mapping)).
    destruct (first_by_Some _ _ _ _ Hfind) as [_ Hkey].
    destruct (flush_update_frame o1 update mapping) as (Hid & _).
    fold mapping' in Hid. simpl in Hid. rewrite Hkey in Hid.
    assert (Hfind' :
      first_by RequirementMapping.id mapping_id
        (replace_row mapping_id mapping' (requirement_mappings db))
      = Some mapping')
      by (apply (first_by_replace_row _ _ _ mapping); assumption).
    rewrite (update_final_state mapping_id update _ o2 mapping');
      [|exact Hfind'].
    simpl. unfold flush_update at 1.
    pose proof (net_change_settled o1 update mapping) as Hsettled.
    fold mapping' in Hsettled. simpl in Hsettled. rewrite Hsettled.
    now rewrite replace_row_twice.
  - assert (Hnone : final_state db
                      (update_requirement_status mapping_id update db o1)
                    = db).
    { unfold final_state, update_requirement_status. now rewrite Hfind. }
    rewrite Hnone. unfold final_state, update_requirement_status.
    now rewrite Hfind.
Qed.

Lemma count_status_cons st m mappings :
  count_status st (m :: mappings)
  = (indicator (RequirementMapping.status m) st
     + count_status st mappings)%Z.
Proof.
  unfold count_status, indicator. simpl.
  destruct (bool_decide (RequirementMapping.status m = st)); simpl; lia.
Qed.

Lemma count_status_app st l1 l2 :
  count_status st (l1 ++ l2)
  = (count_status st l1 + count_status st l2)%Z.
Proof.
  induction l1 as [|m l1 IH]; simpl.
  - unfold count_status at 2. simpl. lia.
  - rewrite !count_status_cons, IH. lia.
Qed.

(** X12. With distinct keys in the table of tracking records, an update
    of a record of system [s] from status [a] to status [b] moves one
    unit of the breakdown of [s] from [a] to [b] and leaves the number of
    records of every system, and the records of every other system, as
    they were. *)
Theorem update_moves_one_count mapping_id update db o mapping :
  List.NoDup (List.map RequirementMapping.id (requirement_mappings db)) ->
  first_by RequirementMapping.id mapping_id (requirement_mappings db)
    = Some mapping ->
  (forall st,
      (count_status st
         (mappings_of (RequirementMapping.ai_system_id mapping)
            (final_state db
               (update_requirement_status mapping_id update db o)))
       + indicator (RequirementMapping.status mapping) st)%Z
      = (count_status st
           (mappings_of (RequirementMapping.ai_system_id mapping) db)
         + indicator (RequirementStatusUpdate.status update) st)%Z) /\
  (forall system_id,
      length (mappings_of system_id
                (final_state db
                   (update_requirement_status mapping_id update db o)))
      = length (mappings_of system_id db)) /\
  (forall system_id,
      system_id <> RequirementMapping.ai_system_id mapping ->
      mappings_of system_id
        (final_state db (update_requirement_status mapping_id update db o))
      = mappings_of system_id db).
Proof.
  intros Hnd Hfind. rewrite (update_final_state _ _ _ o _ Hfind).
  set (mapping' := flush_update o mapping (apply_update update mapping)).
  destruct (replace_row_split mapping_id mapping' _ mapping Hnd Hfind)
    as (before & after & Htable & Hnew).
  destruct (flush_update_frame o update mapping) as (_ & Hsys & _).
  destruct (flush_update_values o update mapping) as (Hst & _).
  fold mapping' in Hsys, Hst.
  unfold mappings_of. simpl. rewrite Hnew, Htable.
  split; [|split].
  - intros st. rewrite !List.filter_app. simpl.
    rewrite Hsys, String.eqb_refl, !count_status_app, !count_status_cons, Hst.
    lia.
  - intros system_id. rewrite !List.filter_app, !length_app. simpl.
    rewrite Hsys. destruct (String.eqb _ system_id); reflexivity.
  - intros system_id Hne. rewrite !List.filter_app. simpl. rewrite Hsys.
    destruct (String.eqb_spec (RequirementMapping.ai_system_id mapping)
                system_id); [congruence | reflexivity].
Qed.

Lemma update_moves_one_count_witness :
  count_status IN_PROGRESS
    (mappings_of "sys-1"
       (final_state sample_db
          (update_requirement_status "map-4" sample_update sample_db
             sample_oracle)))
  = 2%Z.
Proof.
  destruct (update_moves_one_count "map-4" sample_update sample_db
              sample_oracle
              (sample_mapping "map-4" "sys-1" "req-14" NOT_STARTED))
    as (Hcount & _).
  - distinct_keys.
  - reflexivity.
  - specialize (Hcount IN_PROGRESS). simpl in Hcount.
    change (count_status IN_PROGRESS (mappings_of "sys-1" sample_db))
      with 1%Z in Hcount.
    change (indicator NOT_STARTED IN_PROGRESS) with 0%Z in Hcount.
    change (indicator IN_PROGRESS IN_PROGRESS) with 1%Z in Hcount.
    lia.
Defined.

(** ** Stores that requests lead to *)

Lemma referential_create catalog system db o db' :
  referential catalog db /\ assigned_by_rule db ->
  In db' (commits (create_ai_system system db o)) ->
  referential catalog db' /\ assigned_by_rule db'.
Proof.
  intros [(Hc & Hsys & Hids & Hfk) Hrule] Hin.
  destruct (create_ai_system_cases system db o)
    as [[_ H]|[(Hpk & e & _ & H)|[(Hpk & _ & H)|(Hpk & _ & Hins & H)]]];
    simpl in H; rewrite H in Hin; simpl in Hin; [contradiction| | |];
    apply pk_taken_false in Hpk.
  1,2: destruct Hin as [<-|[]].
  3: destruct Hin as [<-|[<-|[]]].
  1,2,3: (split;
    [ unfold referential, with_system; simpl;
      split; [exact Hc|]; split;
      [ rewrite map_app; apply List.NoDup_app;
        [ exact Hsys | repeat constructor; simpl; tauto
        | intros k Hk [<-|[]]; contradiction ]
      | split; [exact Hids|];
        intros m Hm; destruct (Hfk m Hm) as [H1 H2];
        split; [rewrite map_app, in_app_iff; now left | exact H2] ]
    | intros s m Hs Hm Heq; simpl in Hs, Hm;
      apply in_app_iff in Hs as [Hs|[<-|[]]];
      [ now apply (Hrule s m)
      | exfalso; apply Hpk; simpl in Heq; rewrite <- Heq;
        now apply (Hfk m Hm) ] ]).
  set (risk := RiskCategory_value (AISystemCreate.risk_category system)) in *.
  split.
  - unfold referential, with_records, with_system. simpl.
    split; [exact Hc|]. split.
    { rewrite map_app. apply List.NoDup_app;
        [exact Hsys | repeat constructor; simpl; tauto|].
      intros k Hk [<-|[]]. contradiction. }
    split; [eapply insert_mappings_keys; [exact Hins | exact Hids]|].
    intros m Hm. rewrite map_app, in_app_iff. simpl.
    apply in_app_iff in Hm as [Hm|Hm].
    + destruct (Hfk m Hm). auto.
    + unfold applicable_records in Hm.
      apply flush_all_In in Hm as (q & Hq & Hs & Hr & _).
      apply filter_In in Hq as [Hq _].
      split; [right; left; now rewrite Hs|].
      rewrite Hr, <- Hc. now apply in_map.
  - intros s m Hs Hm Heq. simpl in Hs, Hm.
    apply in_app_iff in Hs as [Hs|[<-|[]]];
      apply in_app_iff in Hm as [Hm|Hm].
    + now apply (Hrule s m).
    + exfalso. unfold applicable_records in Hm.
      apply flush_all_In in Hm as (q & _ & Hq & _).
      apply Hpk. rewrite <- Hq, Heq. now apply in_map.
    + exfalso. apply Hpk. simpl in Heq. rewrite <- Heq.
      now apply (Hfk m Hm).
    + unfold applicable_records in Hm.
      apply flush_all_In in Hm as (q & Hq & _ & Hr & _).
      apply filter_In in Hq as [Hq Happ].
      exists q. simpl. auto.
Qed.

Lemma referential_update catalog mapping_id update db o db' :
  referential catalog db /\ assigned_by_rule db ->
  In db' (commits (update_requirement_status mapping_id update db o)) ->
  referential catalog db' /\ assigned_by_rule db'.
Proof.
  intros [(Hc & Hsys & Hids & Hfk) Hrule] Hin.
  destruct (update_commits _ _ _ _ _ Hin) as (m & Hfind & ->).
  destruct (first_by_Some _ _ _ _ Hfind) as [Hm Hkey].
  destruct (flush_update_frame o update m) as (Hid & Hs & Hr & _).
  simpl in Hid, Hs, Hr.
  assert (Hrefs : forall m',
    In m' (replace_row mapping_id
             (flush_update o m (apply_update update m))
             (requirement_mappings db)) ->
    exists m0,
      In m0 (requirement_mappings db) /\
      RequirementMapping.ai_system_id m' = RequirementMapping.ai_system_id m0
      /\ RequirementMapping.requirement_id m'
         = RequirementMapping.requirement_id m0).
  { intros m' Hm'. apply replace_row_In in Hm' as [->|Hm']; eauto. }
  split.
  - unfold referential. simpl. split; [exact Hc|]. split; [exact Hsys|].
    split.
    { rewrite replace_row_ids; [exact Hids | congruence]. }
    intros m' Hm'. destruct (Hrefs m' Hm') as (m0 & H0 & -> & ->).
    now apply Hfk.
  - intros s m' Hin_s Hm' Heq. simpl in Hin_s, Hm' |- *.
    destruct (Hrefs m' Hm') as (m0 & H0 & E1 & E2).
    rewrite E2. apply (Hrule s m0); congruence.
Qed.

(** Every request keeps the two invariants. *)
Lemma referential_step catalog r db o db' :
  referential catalog db /\ assigned_by_rule db ->
  In db' (observable r db o) ->
  referential catalog db' /\ assigned_by_rule db'.
Proof.
  intros Hinv Hin.
  destruct r as [system| |system_id| |system_id|system_id|mapping_id update];
    simpl in Hin.
  - eapply referential_create; eauto.
  - contradiction.
  - unfold get_ai_system in Hin.
    destruct (first_by _ _ _); contradiction.
  - contradiction.
  - unfold get_system_requirements in Hin.
    destruct (first_by _ _ _); contradiction.
  - unfold get_system_compliance in Hin.
    destruct (first_by _ _ _); contradiction.
  - eapply referential_update; eauto.
Qed.

Lemma init_db_referential catalog :
  referential catalog (init_db catalog) /\ assigned_by_rule (init_db catalog).
Proof.
  split.
  - repeat split; simpl; try constructor; contradiction.
  - intros s m Hs. contradiction.
Qed.

Lemma reachable_referential catalog db :
  reachable catalog db -> referential catalog db /\ assigned_by_rule db.
Proof.
  induction 1 as [|db r o db' _ IH Hin];
    [apply init_db_referential | eapply referential_step; eauto].
Qed.

(** X13. Every store that requests lead to from a freshly initialised
    store keeps referential integrity: the keys of the systems are
    distinct, the keys of the tracking records are distinct, and every
    tracking record references a system of the store and a requirement of
    the catalog.  Each tracking record of a system is moreover for a
    requirement that the test of line 152 accepts for the category of the
    system: a status update never attaches a record to another system or
    requirement, and no request assigns a requirement that does not
    apply. *)
Theorem reachable_store_is_referential catalog db :
  reachable catalog db -> referential catalog db /\ assigned_by_rule db.
Proof.
  intros Hreach. induction Hreach as [|db r o db' Hreach IH Hin].
  - apply init_db_referential.
  - exact (referential_step catalog r db o db' IH Hin).
Qed.

Lemma reachable_store_is_referential_witness :
  referential sample_catalog
    (final_state sample_init
       (create_ai_system sample_create sample_init sample_oracle))
  /\ assigned_by_rule
       (final_state sample_init
          (create_ai_system sample_create sample_init sample_oracle)).
Proof.
  apply reachable_store_is_referential.
  apply (reachable_commit sample_catalog sample_init
           (CreateSystem sample_create) sample_oracle).
  - apply reachable_init.
  - simpl. right. left. reflexivity.
Defined.

(** X14. In a store that requests lead to from a freshly initialised
    store, the update of an existing tracking record never fails: the
    requirement that the record references is in the catalog, and the
    response carries the key of the record and the key, the article and
    the title of that requirement. *)
Theorem reachable_update_succeeds catalog db mapping_id update o mapping :
  reachable catalog db ->
  first_by RequirementMapping.id mapping_id (requirement_mappings db)
    = Some mapping ->
  exists response requirement,
    result (update_requirement_status mapping_id update db o)
      = inr response /\
    first_by ComplianceRequirement.id
      (RequirementMapping.requirement_id mapping) catalog
      = Some requirement /\
    In requirement catalog /\
    ComplianceRequirement.id requirement
      = RequirementMapping.requirement_id mapping /\
    StatusUpdateResponse.mapping_id response = mapping_id /\
    StatusUpdateResponse.requirement_id response
      = RequirementMapping.requirement_id mapping /\
    StatusUpdateResponse.article response
      = ComplianceRequirement.article requirement /\
    StatusUpdateResponse.title response
      = ComplianceRequirement.title requirement.
Proof.
  intros Hreach Hfind.
  destruct (reachable_referential _ _ Hreach) as [(Hc & _ & _ & Hfk) _].
  destruct (first_by_Some _ _ _ _ Hfind) as [Hm Hkey].
  destruct (Hfk mapping Hm) as [_ Hreq]. rewrite <- Hc in Hreq.
  destruct (first_by_present _ _ _ Hreq) as (q & Hq & Hin & Hid).
  destruct (flush_update_frame o update mapping) as (Hmid & _ & Hr & _).
  simpl in Hmid, Hr.
  unfold update_requirement_status. rewrite Hfind. simpl.
  rewrite Hr, Hq. eexists. exists q. split; [reflexivity|]. simpl.
  rewrite <- Hc, Hmid. auto 10.
Qed.

Lemma reachable_update_succeeds_witness :
  exists response,
    result (update_requirement_status "xuuid" sample_update
              (final_state sample_init
                 (create_ai_system sample_create sample_init sample_oracle))
              sample_oracle_2) = inr response /\
    StatusUpdateResponse.requirement_id response = "req-13".
Proof.
  destruct (reachable_update_succeeds sample_catalog
              (final_state sample_init
                 (create_ai_system sample_create sample_init sample_oracle))
              "xuuid" sample_update sample_oracle_2
              (flush_mapping sample_oracle 1
                 (new_pending "uuid"
                    (sample_requirement "req-13" "Article 13" "Transparency"
                       ["high"; "limited"]))))
    as (response & q & Hres & _ & _ & _ & _ & Hid & _).
  - apply (reachable_commit sample_catalog sample_init
             (CreateSystem sample_create) sample_oracle).
    + apply reachable_init.
    + simpl. right. left. reflexivity.
  - reflexivity.
  - exists response. split; [exact Hres | exact Hid].
Defined.

Lemma mapping_entries_complete db mappings :
  (forall m,
      In m mappings ->
      In (RequirementMapping.requirement_id m)
         (List.map ComplianceRequirement.id (compliance_requirements db))) ->
  List.map MappingEntry.mapping_id (mapping_entries db mappings)
  = List.map RequirementMapping.id mappings.
Proof.
  induction mappings as [|m mappings IH]; intros Hall; simpl; [reflexivity|].
  destruct (first_by_present _ _ _ (Hall m (or_introl eq_refl)))
    as (q & Hq & _).
  rewrite Hq. simpl. rewrite IH; [reflexivity|].
  intros m' Hm'. apply Hall. now right.
Qed.

Lemma summarize_total system_id system mappings :
  exists summary,
    summarize system_id system mappings = inr summary /\
    ComplianceSummary.total_requirements summary
    = Z.of_nat (length mappings).
Proof.
  destruct mappings as [|m mappings].
  - eexists. split; [apply summarize_empty | reflexivity].
  - destruct (summarize_nonempty system_id system (m :: mappings))
      as (d & _ & Hsum); [discriminate|].
    eexists. split; [exact Hsum | reflexivity].
Qed.

(** X15. In a store that requests lead to from a freshly initialised
    store, the listing of the tracking records of a system has one entry
    for each of its records, in order, and their number is the total of
    the compliance summary. *)
Theorem reachable_listing_matches_total catalog db system_id system :
  reachable catalog db ->
  first_by AISystem.id system_id (ai_systems db) = Some system ->
  exists entries summary,
    result (get_system_requirements system_id db) = inr entries /\
    result (get_system_compliance system_id db) = inr summary /\
    List.map MappingEntry.mapping_id entries
      = List.map RequirementMapping.id (mappings_of system_id db) /\
    Z.of_nat (length entries)
      = ComplianceSummary.total_requirements summary.
Proof.
  intros Hreach Hsys.
  destruct (reachable_referential _ _ Hreach) as [(Hc & _ & _ & Hfk) _].
  destruct (summarize_total system_id system (mappings_of system_id db))
    as (summary & Hsum & Htotal).
  assert (Hids :
    List.map MappingEntry.mapping_id
      (mapping_entries db (mappings_of system_id db))
    = List.map RequirementMapping.id (mappings_of system_id db)).
  { apply mapping_entries_complete. intros m Hm.
    apply filter_In in Hm as [Hm _]. rewrite Hc. now apply Hfk. }
  unfold get_system_requirements, get_system_compliance. rewrite Hsys.
  simpl. eexists. exists summary.
  split; [reflexivity|]. split; [exact Hsum|]. split; [exact Hids|].
  rewrite Htotal. f_equal.
  apply (f_equal (@length _)) in Hids. now rewrite !length_map in Hids.
Qed.

Lemma reachable_listing_matches_total_witness :
  exists entries,
    result (get_system_requirements "uuid"
              (final_state sample_init
                 (create_ai_system sample_create sample_init sample_oracle)))
      = inr entries /\
    List.map MappingEntry.mapping_id entries = ["xuuid"; "xxuuid"].
Proof.
  destruct (reachable_listing_matches_total sample_catalog
              (final_state sample_init
                 (create_ai_system sample_create sample_init sample_oracle))
              "uuid" (new_system sample_create sample_oracle))
    as (entries & summary & Hent & _ & Hids & _).
  - apply (reachable_commit sample_catalog sample_init
             (CreateSystem sample_create) sample_oracle).
    + apply reachable_init.
    + simpl. right. left. reflexivity.
  - reflexivity.
  - exists entries. split; [exact Hent | exact Hids].
Defined.

(** X16. No request deletes or reorders: in every store a request
    commits, the systems of the store before are still there, unchanged
    and in order, followed by the new ones; the catalog is the same; and
    the keys of the tracking records before are still there, in order,
    followed by the new ones. *)
Theorem requests_only_append r db o db' :
  In db' (observable r db o) ->
  compliance_requirements db' = compliance_requirements db /\
  (exists systems, ai_systems db' = ai_systems db ++ systems) /\
  (exists keys,
      List.map RequirementMapping.id (requirement_mappings db')
      = List.map RequirementMapping.id (requirement_mappings db) ++ keys).
Proof.
  destruct r as [system| |system_id| |system_id|system_id|mapping_id update];
    simpl; intros Hin.
  - destruct (create_ai_system_commits _ _ _ _ Hin) as [_ [-> | ->]]; simpl.
    + split; [reflexivity|]. split; [eauto|].
      exists []. now rewrite app_nil_r.
    + split; [reflexivity|]. split; [eauto|].
      rewrite map_app. eauto.
  - contradiction.
  - unfold get_ai_system in Hin. destruct (first_by _ _ _); contradiction.
  - contradiction.
  - unfold get_system_requirements in Hin.
    destruct (first_by _ _ _); contradiction.
  - unfold get_system_compliance in Hin.
    destruct (first_by _ _ _); contradiction.
  - destruct (update_commits _ _ _ _ _ Hin) as (m & Hfind & ->).
    destruct (first_by_Some _ _ _ _ Hfind) as [_ Hkey].
    destruct (flush_update_frame o update m) as (Hid & _). simpl in Hid.
    simpl. split; [reflexivity|].
    split; [exists []; now rewrite app_nil_r|].
    exists []. rewrite app_nil_r. apply replace_row_ids. congruence.
Qed.

Lemma requests_only_append_witness :
  exists systems,
    ai_systems
      (final_state sample_db
         (create_ai_system sample_create sample_db sample_oracle))
    = ai_systems sample_db ++ systems.
Proof.
  apply (requests_only_append (CreateSystem sample_create) sample_db
           sample_oracle).
  simpl. right. left. reflexivity.
Defined.

(** ** What the reads return *)

Lemma mapping_entries_sound db mappings e :
  In e (mapping_entries db mappings) ->
  exists m q,
    In m mappings /\
    In q (compliance_requirements db) /\
    RequirementMapping.requirement_id m = ComplianceRequirement.id q /\
    e = entry_of m q.
Proof.
  induction mappings as [|m mappings IH]; simpl; [contradiction|].
  destruct (first_by ComplianceRequirement.id
              (RequirementMapping.requirement_id m)
              (compliance_requirements db)) as [q|] eqn:Hq.
  - intros [<-|Hin].
    + apply first_by_Some in Hq as [Hin Hid].
      exists m, q. unfold entry_of. auto.
    + destruct (IH Hin) as (m' & q' & H). exists m', q'. tauto.
  - intros Hin. destruct (IH Hin) as (m' & q' & H). exists m', q'. tauto.
Qed.

Lemma mapping_entries_length db mappings :
  (length (mapping_entries db mappings) <= length mappings)%nat.
Proof.
  induction mappings as [|m mappings IH]; simpl; [lia|].
  destruct (first_by _ _ _); simpl; lia.
Qed.

(** X17. Every entry that [get_system_requirements] returns joins a
    tracking record of the system asked for with the row of the catalog
    that has the key the record references, and carries the status, the
    notes and the last-modified time of the record.  A record whose
    requirement is not in the catalog is skipped without an error, so the
    listing can be shorter than the total of the summary, never longer. *)
Theorem listing_joins_records_with_catalog system_id db entries :
  result (get_system_requirements system_id db) = inr entries ->
  (forall e,
      In e entries ->
      exists m q,
        In m (requirement_mappings db) /\
        RequirementMapping.ai_system_id m = system_id /\
        In q (compliance_requirements db) /\
        RequirementMapping.requirement_id m = ComplianceRequirement.id q /\
        e = entry_of m q) /\
  exists summary,
    result (get_system_compliance system_id db) = inr summary /\
    (Z.of_nat (length entries)
     <= ComplianceSummary.total_requirements summary)%Z.
Proof.
  unfold get_system_requirements, get_system_compliance.
  destruct (first_by AISystem.id system_id (ai_systems db)) as [s|];
    simpl; [|discriminate].
  intros [= <-]. split.
  - intros e He. apply mapping_entries_sound in He
      as (m & q & Hm & Hq & Hid & ->).
    apply filter_In in Hm as [Hm Hs]. apply String.eqb_eq in Hs.
    exists m, q. auto.
  - destruct (summarize_total system_id s (mappings_of system_id db))
      as (summary & Hsum & Htotal).
    exists summary. split; [exact Hsum|]. rewrite Htotal.
    pose proof (mapping_entries_length db (mappings_of system_id db)). lia.
Qed.

Lemma listing_joins_records_with_catalog_witness :
  exists summary,
    result (get_system_compliance "sys-1" sample_db_orphan) = inr summary /\
    (1 <= ComplianceSummary.total_requirements summary)%Z.
Proof.
  destruct (listing_joins_records_with_catalog "sys-1" sample_db_orphan
              [entry_of (sample_mapping "map-1" "sys-1" "req-9" COMPLETED)
                 (sample_requirement "req-9" "Article 9" "Risk management"
                    ["high"])])
    as (_ & summary & Hres & Hle).
  - reflexivity.
  - exists summary. split; [exact Hres | exact Hle].
Defined.

(** X18. The compliance summary has no failure but the 404: for an
    identifier that a system has it succeeds, with the number of tracking
    records of the system as total, and it never raises [KeyError] or
    [ZeroDivisionError]; for any other identifier it raises the 404.  It
    commits nothing either way. *)
Theorem summary_fails_only_with_404 system_id db :
  commits (get_system_compliance system_id db) = [] /\
  ((In system_id (List.map AISystem.id (ai_systems db)) /\
    exists summary,
      result (get_system_compliance system_id db) = inr summary /\
      ComplianceSummary.system_id summary = system_id /\
      ComplianceSummary.total_requirements summary
      = Z.of_nat (length (mappings_of system_id db)))
   \/ (~ In system_id (List.map AISystem.id (ai_systems db)) /\
       result (get_system_compliance system_id db)
       = inl (HTTPException 404 "AI system not found"))).
Proof.
  unfold get_system_compliance.
  destruct (first_by AISystem.id system_id (ai_systems db)) as [s|] eqn:E;
    simpl.
  - split; [reflexivity|]. left.
    destruct (first_by_Some _ _ _ _ E) as [Hin Hid].
    split; [rewrite <- Hid; now apply in_map|].
    destruct (mappings_of system_id db) as [|m ms] eqn:Ems.
    + eexists. split; [apply summarize_empty|]. split; reflexivity.
    + destruct (summarize_nonempty system_id s (m :: ms))
        as (d & _ & Hsum); [discriminate|].
      eexists. split; [exact Hsum|]. split; reflexivity.
  - split; [reflexivity|]. right. split; [|reflexivity].
    intros Hin. destruct (first_by_present _ _ _ Hin) as (s & Hs & _).
    congruence.
Qed.

(** ** The enumerations *)

(** X19. The values of the two enumerations identify their members:
    converting the value of a member gives the member back, for statuses
    (the conversion of line 376) and for risk categories, and a string
    converts to a member only if it is the value of that member. *)
Theorem enum_values_round_trip :
  (forall s, ComplianceStatus_of_value (ComplianceStatus_value s) = Some s) /\
  (forall v s,
      ComplianceStatus_of_value v = Some s -> v = ComplianceStatus_value s) /\
  (forall r, RiskCategory_of_value (RiskCategory_value r) = Some r) /\
  (forall v r, RiskCategory_of_value v = Some r -> v = RiskCategory_value r).
Proof.
  split; [intros []; reflexivity|].
  split.
  { intros v s. unfold ComplianceStatus_of_value.
    destruct (String.eqb_spec v "not_started") as [->|_];
      [intros [= <-]; reflexivity|].
    destruct (String.eqb_spec v "in_progress") as [->|_];
      [intros [= <-]; reflexivity|].
    destruct (String.eqb_spec v "completed") as [->|_];
      [intros [= <-]; reflexivity|].
    destruct (String.eqb_spec v "non_compliant") as [->|_];
      [intros [= <-]; reflexivity|].
    discriminate. }
  split; [intros []; reflexivity|].
  intros v r. unfold RiskCategory_of_value.
  destruct (String.eqb_spec v "unacceptable") as [->|_];
    [intros [= <-]; reflexivity|].
  destruct (String.eqb_spec v "high") as [->|_];
    [intros [= <-]; reflexivity|].
  destruct (String.eqb_spec v "limited") as [->|_];
    [intros [= <-]; reflexivity|].
  destruct (String.eqb_spec v "minimal") as [->|_];
    [intros [= <-]; reflexivity|].
  discriminate.
Qed.
